(** * The progressive overload engine of [src/src/App.jsx]

    A shallow embedding of [calculateProgressiveValue],
    [calculateAdaptiveFactor], [applyProgression], of the week computation
    of [DashboardView] and of the history listener, together with the
    ECMAScript built-ins these functions call.

    JavaScript numbers are IEEE 754 binary64 values: they are embedded as
    Rocq's primitive [float]s, whose operations are the processor's.
    Strings are sequences of code units below 256 ([ascii]). *)

From Stdlib Require Import ZArith Lia Bool Ascii String List Floats.
From Stdlib Require Import Sorted Permutation.
From stdpp Require Import base option gmap strings.

Set Warnings "-inexact-float".
#[local] Open Scope Z_scope.

(** ** The ECMAScript built-ins used by the engine *)

Module Js.

(** *** Decimal digits *)

Definition digit_char (d : Z) : ascii := ascii_of_nat (48 + Z.to_nat d).

Definition is_digit (c : ascii) : bool :=
  let n := nat_of_ascii c in Nat.leb 48 n && Nat.leb n 57.

Definition digit_val (c : ascii) : Z := Z.of_nat (nat_of_ascii c) - 48.

(** The decimal digits of [z >= 0] put in front of [acc]; the fuel bounds
    the number of digits after the first. *)
Fixpoint digits_acc (fuel : nat) (z : Z) (acc : string) : string :=
  let acc' := String (digit_char (z mod 10)) acc in
  match fuel with
  | O => acc'
  | S f => if z <? 10 then acc' else digits_acc f (z / 10) acc'
  end.

Definition decimal_digits (z : Z) : string :=
  digits_acc (Z.to_nat (Z.log2 z)) z EmptyString.

Fixpoint span_digits (s : string) : string * string :=
  match s with
  | String c r =>
      if is_digit c then let '(d, r') := span_digits r in (String c d, r')
      else (EmptyString, s)
  | EmptyString => (EmptyString, EmptyString)
  end.

Fixpoint digits_value_from (acc : Z) (s : string) : Z :=
  match s with
  | String c r => digits_value_from (10 * acc + digit_val c) r
  | EmptyString => acc
  end.

Definition digits_value (s : string) : Z := digits_value_from 0 s.

Fixpoint zeros (n : nat) : string :=
  match n with O => EmptyString | S k => String "0" (zeros k) end.

Fixpoint split_at (n : nat) (s : string) : string * string :=
  match n, s with
  | S k, String c r => let '(a, b) := split_at k r in (String c a, b)
  | _, _ => (EmptyString, s)
  end.

(** *** Numbers as exact values

    A finite nonzero double is [(-1)^s * m * 2^e] ([Prim2SF]); the helpers
    below compute on that exact value with integers. *)

Definition float_of_Z (n : Z) : float :=
  SF2Prim (binary_normalize prec emax n 0 false).

(** [sign * M * 10^E], correctly rounded to the nearest double (ties to
    even): the numeric value of a decimal literal. *)
Definition decimal_to_float (neg : bool) (M E : Z) : float :=
  let sf :=
    match M with
    | Zpos p =>
        if 0 <=? E then binary_normalize prec emax (M * 10 ^ E) 0 false
        else SFdiv prec emax (S754_finite false p 0)
                   (S754_finite false (Z.to_pos (10 ^ (- E))) 0)
    | _ => S754_zero false
    end in
  SF2Prim (if neg then SFopp sf else sf).

(** *** Math.round, Math.min

    [Math.round(x)] is the integer nearest to [x], ties towards +∞; a
    result of zero keeps the sign of [x]. *)
Definition Math_round (x : float) : float :=
  match Prim2SF x with
  | S754_finite s m e =>
      if 0 <=? e then x
      else
        let d := 2 ^ (- e) in
        let n := ((if s then - Zpos m else Zpos m) * 2 + d) / (2 * d) in
        if n =? 0 then (if s then neg_zero else zero) else float_of_Z n
  | _ => x
  end.

Definition Math_min (a b : float) : float :=
  if is_nan a || is_nan b then nan
  else if (a <? b)%float then a
  else if (b <? a)%float then b
  else if get_sign a then a else b.

(** *** Number::toString (radix 10)

    The shortest decimal [s * 10^(n-k)] ([k] digits) that reads back as the
    double [m * 2^e], the closest to it when several have that length. *)

(** The [n] with [10^(n-1) <= X/D < 10^n]: counted upwards from 0 when
    [X/D >= 1], downwards otherwise. *)
Fixpoint exponent_up (fuel : nat) (X D n : Z) : Z :=
  match fuel with
  | O => n
  | S f => if X <? D then n else exponent_up f X (10 * D) (n + 1)
  end.

Fixpoint exponent_down (fuel : nat) (X D n : Z) : Z :=
  match fuel with
  | O => n
  | S f => if 10 * X <? D then exponent_down f (10 * X) D (n - 1) else n
  end.

Definition decimal_exponent (X D : Z) : Z :=
  if X <? D then exponent_down 400 X D 0 else exponent_up 400 X D 0.

Section Shortest.
(** The value is [X * up / dn]; the reals that round to it lie between
    [LO * up / dn] and [HI * up / dn], bounds included when [even]. *)
Variables (X LO HI up dn n : Z) (even : bool).

Definition candidate (k : Z) : option Z :=
  let A := dn * 10 ^ Z.max (n - k) 0 in
  let B := up * 10 ^ Z.max (k - n) 0 in
  let ok c :=
    ((LO * B <? c * A) || (even && (LO * B =? c * A)))
    && ((c * A <? HI * B) || (even && (c * A =? HI * B))) in
  let s_lo := (X * B) / A in
  let s_hi := s_lo + 1 in
  let d_lo := X * B - s_lo * A in
  let d_hi := s_hi * A - X * B in
  match ok s_lo, ok s_hi with
  | true, true =>
      if d_lo <? d_hi then Some s_lo
      else if d_hi <? d_lo then Some s_hi
      else Some (if Z.even s_lo then s_lo else s_hi)
  | true, false => Some s_lo
  | false, true => Some s_hi
  | false, false => None
  end.

Fixpoint shortest_from (fuel : nat) (k : Z) : Z * Z * Z :=
  match candidate k with
  | Some s => if s =? 10 ^ k then (1, 1, n + 1) else (s, k, n)
  | None =>
      match fuel with
      | O => ((X * up * 10 ^ Z.max (k - n) 0) / (dn * 10 ^ Z.max (n - k) 0), k, n)
      | S f => shortest_from f (k + 1)
      end
  end.
End Shortest.

Definition shortest_decimal (m : positive) (e : Z) : Z * Z * Z :=
  let X := 4 * Zpos m in
  let LO := if (Zpos m =? 2 ^ 52) && (-1074 <? e) then X - 1 else X - 2 in
  let HI := X + 2 in
  let up := 2 ^ Z.max (e - 2) 0 in
  let dn := 2 ^ Z.max (2 - e) 0 in
  let n := decimal_exponent (X * up) dn in
  shortest_from X LO HI up dn n (Z.even (Zpos m)) 16 1.

Definition render_decimal (skn : Z * Z * Z) : string :=
  let '(s, k, n) := skn in
  let ds := decimal_digits s in
  if (k <=? n) && (n <=? 21) then ds +:+ zeros (Z.to_nat (n - k))
  else if (0 <? n) && (n <=? 21) then
    let '(a, b) := split_at (Z.to_nat n) ds in a +:+ "." +:+ b
  else if (-6 <? n) && (n <=? 0) then
    String "0" (String "." (zeros (Z.to_nat (- n)) +:+ ds))
  else
    let ex := (if n - 1 <? 0 then "-" else "+") +:+ decimal_digits (Z.abs (n - 1)) in
    match ds with
    | String c EmptyString => String c ("e" +:+ ex)
    | String c r => String c ("." +:+ r +:+ "e" +:+ ex)
    | EmptyString => "e" +:+ ex
    end.

Definition NumberToString (x : float) : string :=
  match Prim2SF x with
  | S754_nan => "NaN"
  | S754_zero _ => "0"
  | S754_infinity s => if s then "-Infinity" else "Infinity"
  | S754_finite s m e =>
      (if s then "-" else EmptyString) +:+ render_decimal (shortest_decimal m e)
  end.

(** *** Number.prototype.toFixed

    [x.toFixed(f)]: the integer [n] with [n / 10^f] nearest to [|x|] (the
    larger one on a tie), printed with [f] digits after the point. *)
Definition toFixed (x : float) (f : nat) : string :=
  let fixed (s : bool) (num den : Z) :=
    let n := (2 * num * 10 ^ Z.of_nat f + den) / (2 * den) in
    let ds := decimal_digits n in
    let ds := zeros (f + 1 - String.length ds) +:+ ds in
    let body :=
      match f with
      | O => ds
      | _ => let '(a, b) := split_at (String.length ds - f) ds in a +:+ "." +:+ b
      end in
    (if s then "-" else EmptyString) +:+ body in
  match Prim2SF x with
  | S754_finite s m e =>
      let num := Zpos m * 2 ^ Z.max e 0 in
      let den := 2 ^ Z.max (- e) 0 in
      if 10 ^ 21 * den <=? num then NumberToString x else fixed s num den
  | S754_zero _ => fixed false 0 1
  | _ => NumberToString x
  end.

(** *** parseFloat

    [parseFloat] skips leading white space and reads the longest prefix
    that is a [StrDecimalLiteral]; its result is [NaN] exactly when there
    is no such prefix, which is [None] here. The numeric value of a
    literal is never [NaN]. *)

Definition is_white_space (c : ascii) : bool :=
  let n := nat_of_ascii c in
  Nat.eqb n 9 || Nat.eqb n 10 || Nat.eqb n 11 || Nat.eqb n 12
  || Nat.eqb n 13 || Nat.eqb n 32 || Nat.eqb n 160.

Fixpoint skip_white_space (s : string) : string :=
  match s with
  | String c r => if is_white_space c then skip_white_space r else s
  | EmptyString => s
  end.

(** The value of an [ExponentPart] at the head of [s], 0 when there is none. *)
Definition exponent_part (s : string) : Z :=
  match s with
  | String c r =>
      if Ascii.eqb c "e" || Ascii.eqb c "E" then
        let '(neg, r') :=
          match r with
          | String "-" t => (true, t)
          | String "+" t => (false, t)
          | _ => (false, r)
          end in
        match fst (span_digits r') with
        | EmptyString => 0
        | ds => if neg then - digits_value ds else digits_value ds
        end
      else 0
  | EmptyString => 0
  end.

(** A [StrUnsignedDecimalLiteral] at the head of [s1], with the sign read
    before it. *)
Definition parse_unsigned (neg : bool) (s1 : string) : option float :=
  if String.prefix "Infinity" s1 then Some (if neg then neg_infinity else infinity)
  else
    let '(ip, s2) := span_digits s1 in
    let '(fp, s3) :=
      match s2 with
      | String c r => if Ascii.eqb c "." then span_digits r else (EmptyString, s2)
      | EmptyString => (EmptyString, s2)
      end in
    match ip +:+ fp with
    | EmptyString => None
    | ds =>
        Some (decimal_to_float neg (digits_value ds)
                (exponent_part s3 - Z.of_nat (String.length fp)))
    end.

Definition parseFloat (input : string) : option float :=
  match skip_white_space input with
  | String c r =>
      if Ascii.eqb c "-" then parse_unsigned true r
      else if Ascii.eqb c "+" then parse_unsigned false r
      else parse_unsigned false (String c r)
  | EmptyString => None
  end.

(** *** The two regular expressions of [applyProgression] *)

(** [s.replace(/[0-9.-]/g, '')] *)
Fixpoint strip_numeric (s : string) : string :=
  match s with
  | String c r =>
      if is_digit c || Ascii.eqb c "." || Ascii.eqb c "-" then strip_numeric r
      else String c (strip_numeric r)
  | EmptyString => EmptyString
  end.

(** A match of [/([+-]?\d+(?:\.\d+)?)/] at the head of [s]: the matched
    text and what follows it. A sign that no digit follows matches
    nothing, and so does a point that no digit follows. *)
Definition match_numeral_here (s : string) : option (string * string) :=
  let '(sg, s1) :=
    match s with
    | String c r =>
        if Ascii.eqb c "+" || Ascii.eqb c "-" then (String c EmptyString, r)
        else (EmptyString, s)
    | EmptyString => (EmptyString, s)
    end in
  let '(ip, s2) := span_digits s1 in
  match ip with
  | EmptyString => None
  | _ =>
      match s2 with
      | String "." r =>
          match span_digits r with
          | (EmptyString, _) => Some (sg +:+ ip, s2)
          | (fp, s3) => Some (sg +:+ ip +:+ "." +:+ fp, s3)
          end
      | _ => Some (sg +:+ ip, s2)
      end
  end.

(** The leftmost match in [s]: the text before it, the match, the text after. *)
Fixpoint find_numeral (s : string) : option (string * string * string) :=
  match match_numeral_here s with
  | Some (m, rest) => Some (EmptyString, m, rest)
  | None =>
      match s with
      | String c r =>
          match find_numeral r with
          | Some (b, m, a) => Some (String c b, m, a)
          | None => None
          end
      | EmptyString => None
      end
  end.

(** *** Values

    The values a detail field holds: primitives, as the templates and the
    plan generator store them. *)
Inductive JsValue :=
  | JsUndefined
  | JsNull
  | JsBoolean (b : bool)
  | JsNumber (x : float)
  | JsString (s : string).

Definition number_truthy (x : float) : bool := negb (is_zero x || is_nan x).

Definition ToBoolean (v : JsValue) : bool :=
  match v with
  | JsUndefined | JsNull => false
  | JsBoolean b => b
  | JsNumber x => number_truthy x
  | JsString s => negb (String.eqb s EmptyString)
  end.

Definition ToString (v : JsValue) : string :=
  match v with
  | JsUndefined => "undefined"
  | JsNull => "null"
  | JsBoolean b => if b then "true" else "false"
  | JsNumber x => NumberToString x
  | JsString s => s
  end.

(** *** Math.pow

    ECMA-262 fixes [Math.pow] on special arguments only (a zero exponent
    gives 1 for every base) and leaves the rest to the engine's
    approximation, so the engine below takes [Math.pow] as a parameter.
    [pow_integral] is the instance used where a closed term is needed: 1
    for a zero exponent, repeated multiplication for an integral exponent
    of magnitude up to 1024, [NaN] elsewhere. *)
Fixpoint pow_nat (x : float) (n : nat) : float :=
  match n with O => 1%float | S k => (x * pow_nat x k)%float end.

Definition pow_integral (x y : float) : float :=
  if is_zero y then 1%float
  else
    match Prim2SF y with
    | S754_finite s m e =>
        let num := Zpos m * 2 ^ Z.max e 0 in
        let den := 2 ^ Z.max (- e) 0 in
        if (num mod den =? 0) && (num / den <=? 1024) then
          let r := pow_nat x (Z.to_nat (num / den)) in
          if s then (1 / r)%float else r
        else nan
    | _ => nan
    end.

End Js.

Import Js.

(** ** Data model *)

(** [progressionSettings]: [strategy] and [userMultiplier] may be absent
    ([undefined]); [increments] maps a field name to a number. *)
Record ProgressionSettings := {
  strategy : option string;
  increments : gmap string float;
  userMultiplier : option float;
}.

(** A completion log entry, as a history document stores it. A field that
    is absent reads [undefined]; [completedAt] is [Some] for a Firestore
    [Timestamp] only, given in milliseconds. *)
Record LogEntry := {
  planName : string;
  weekNumber : option float;
  day : string;
  completedAt : option Z;
  profileId : option string;
}.

(** A details record: field name to value; an absent field reads
    [undefined]. *)
Definition field (details : gmap string JsValue) (name : string) : JsValue :=
  default JsUndefined (details !! name).

(** [increments.name] is truthy: present, not 0 and not [NaN]. *)
Definition increment_set (incs : gmap string float) (name : string) : bool :=
  match incs !! name with
  | Some i => number_truthy i
  | None => false
  end.

Definition increment_of (incs : gmap string float) (name : string) : float :=
  default nan (incs !! name).

(** ** The progressive overload calculation engine *)

Section Engine.

#[local] Open Scope float_scope.

Variable Math_pow : float -> float -> float.

(** [calculateProgressiveValue], App.jsx:1398. An absent argument takes
    its default value. *)
Definition calculateProgressiveValue (baseValue weekNumber increment : float)
    (userMultiplier : option float) (strategy : option string)
    (adaptiveFactor : option float) : float :=
  let userMultiplier := default 1 userMultiplier in
  let strategy := default "linear"%string strategy in
  let adaptiveFactor := default 1 adaptiveFactor in
  let weeksProgressed := weekNumber - 1 in
  if String.eqb strategy "percentage" then
    let percentIncrease := increment / 100 in
    baseValue * Math_pow (1 + percentIncrease)
                  (weeksProgressed * userMultiplier * adaptiveFactor)
  else
    baseValue + (increment * weeksProgressed * userMultiplier * adaptiveFactor).

(** The filter of [calculateAdaptiveFactor], App.jsx:1419. A comparison
    with [undefined] is false. *)
Definition inWindow (currentWeek : float) (log : LogEntry) : bool :=
  match weekNumber log with
  | Some n => (currentWeek - 3 <=? n) && (n <? currentWeek)
  | None => false
  end.

Definition recentWorkouts (history : list LogEntry) (currentWeek : float)
    : list LogEntry :=
  List.filter (inWindow currentWeek) history.

(** App.jsx:1428-1430. *)
Definition completionRate (recent : list LogEntry) (currentWeek : float) : float :=
  let weeksCovered := Math_min 3 (currentWeek - 1) in
  let expectedWorkouts := weeksCovered * 4 in
  float_of_Z (Z.of_nat (length recent)) / expectedWorkouts.

(** App.jsx:1433-1441. [a >= b] is [b <=? a]. *)
Definition adaptiveTier (completionRate : float) : float :=
  if 0.9 <=? completionRate then 1.1
  else if 0.7 <=? completionRate then 1.0
  else if 0.5 <=? completionRate then 0.95
  else 0.9.

(** [calculateAdaptiveFactor], App.jsx:1417. *)
Definition calculateAdaptiveFactor (history : list LogEntry) (currentWeek : float)
    : float :=
  let recent := recentWorkouts history currentWeek in
  if Nat.ltb (length recent) 3 then 1.0
  else adaptiveTier (completionRate recent currentWeek).

(** [applyProgression], App.jsx:1452. The four blocks, each from the
    baseline to the result built so far. *)
Section ApplyProgression.
Variables (baselineDetails : gmap string JsValue) (currentWeek : float)
          (progressionSettings : ProgressionSettings)
          (adaptiveFactor : float).

Definition progressed (base : float) (name : string) : float :=
  calculateProgressiveValue base currentWeek
    (increment_of (increments progressionSettings) name)
    (userMultiplier progressionSettings) (strategy progressionSettings)
    (Some adaptiveFactor).

Definition progressNumeric (name : string) (result : gmap string JsValue)
    : gmap string JsValue :=
  match field baselineDetails name with
  | JsNumber base =>
      if increment_set (increments progressionSettings) name
      then <[name := JsNumber (Math_round (progressed base name))]> result
      else result
  | _ => result
  end.

Definition progressReps (result : gmap string JsValue) : gmap string JsValue :=
  let reps := field baselineDetails "reps" in
  if ToBoolean reps then
    match parseFloat (ToString reps) with
    | Some repsNum =>
        if increment_set (increments progressionSettings) "reps" then
          let newReps := progressed repsNum "reps" in
          let unit := strip_numeric (ToString reps) in
          <["reps"%string :=
              JsString (NumberToString (Math_round newReps) +:+ unit)]> result
        else result
    | None => result
    end
  else result.

Definition progressWeight (result : gmap string JsValue) : gmap string JsValue :=
  match field baselineDetails "weight" with
  | JsString weight =>
      if ToBoolean (JsString weight) then
        match find_numeral weight with
        | Some (before, weightMatch, after) =>
            if increment_set (increments progressionSettings) "weight" then
              let baseWeight := default nan (parseFloat weightMatch) in
              let newWeight := progressed baseWeight "weight" in
              <["weight"%string :=
                  JsString (before +:+ toFixed newWeight 1 +:+ after)]> result
            else result
        | None => result
        end
      else result
  | _ => result
  end.

Definition applyProgression_body : gmap string JsValue :=
  let result := baselineDetails in
  let result := progressNumeric "sets" result in
  let result := progressReps result in
  let result := progressWeight result in
  let result := progressNumeric "duration" result in
  result.
End ApplyProgression.

Definition applyProgression (baselineDetails : gmap string JsValue)
    (currentWeek : float) (progressionSettings : ProgressionSettings)
    (adaptiveFactor : option float) : gmap string JsValue :=
  applyProgression_body baselineDetails currentWeek progressionSettings
    (default 1 adaptiveFactor).

End Engine.

(** ** The schedule clock and the history listener *)

(** App.jsx:2798, on whole days. [x % 0] is [NaN]: [None]. The operands
    are integers below 2^53, on which the double operations of the source
    are exact; [%] truncates, as [Z.rem]. *)
Definition planWeekOfDay (diffDays durationWeeks : Z) : option Z :=
  if durationWeeks =? 0 then None
  else Some (Z.rem (diffDays / 7) durationWeeks + 1).

(** App.jsx:2796-2798, times in milliseconds. *)
Definition currentPlanWeek (today planStartDate durationWeeks : Z) : option Z :=
  let diffTime := Z.abs (today - planStartDate) in
  let diffDays := diffTime / (1000 * 60 * 60 * 24) in
  planWeekOfDay diffDays durationWeeks.

(** [Array.prototype.sort] with a comparator is stable: insertion from
    the right, past the elements that come strictly first. *)
Fixpoint sort_insert {A} (first : A -> A -> bool) (x : A) (l : list A) : list A :=
  match l with
  | [] => [x]
  | y :: r => if first y x then y :: sort_insert first x r else x :: l
  end.

Definition array_sort {A} (first : A -> A -> bool) (l : list A) : list A :=
  fold_right (sort_insert first) [] l.

Definition hasCompletedAt (data : LogEntry) : bool :=
  match completedAt data with Some _ => true | None => false end.

Definition hasWeekNumber (data : LogEntry) : bool :=
  match weekNumber data with Some _ => true | None => false end.

(** [(a, b) => b.completedAt - a.completedAt] is negative: [a] is later. *)
Definition laterFirst (a b : LogEntry) : bool :=
  default 0 (completedAt b) <? default 0 (completedAt a).

Definition ofProfile (activeProfileId : string) (data : LogEntry) : bool :=
  match profileId data with
  | Some p => String.eqb p activeProfileId
  | None => false
  end.

(** The history listener, App.jsx:4311-4321: the documents of the active
    profile whose [completedAt] is a [Timestamp], latest first. *)
Definition historyListener (activeProfileId : string) (docs : list LogEntry)
    : list LogEntry :=
  array_sort laterFirst
    (List.filter (fun data => ofProfile activeProfileId data && hasCompletedAt data)
                 docs).

(** ** The week of the dashboard

    [DashboardView], App.jsx:2788-2822: the adaptive factor, the current
    week built from the base week, and today's entry. *)

(** An exercise of the base week: [name], [type], [baselineDetails] and
    the older [details]; an absent details object is [None]. *)
Record Exercise := {
  ex_name : string;
  ex_type : string;
  ex_baselineDetails : option (gmap string JsValue);
  ex_details : option (gmap string JsValue);
}.

(** A day of the base week: [day], [focus], [exercises]. *)
Record DayTemplate := {
  day_label : string;
  day_focus : string;
  day_exercises : list Exercise;
}.

(** [a || b] on two optional objects (an object is truthy). *)
Definition or_else {A} (a b : option A) : option A :=
  match a with Some _ => a | None => b end.

(** The fallback of App.jsx:2816. *)
Definition defaultProgressionSettings : ProgressionSettings :=
  {| strategy := Some "linear"; increments := ∅; userMultiplier := Some 1%float |}.

Section Dashboard.

Variable Math_pow : float -> float -> float.

(** App.jsx:2801-2803; [adaptiveEnabled] is the field of
    [plan.progressionSettings], false when the settings are absent. *)
Definition dashboardAdaptiveFactor (adaptiveEnabled : bool)
    (history : list LogEntry) (currentPlanWeek : float) : float :=
  if adaptiveEnabled then calculateAdaptiveFactor history currentPlanWeek
  else 1%float.

(** App.jsx:2810-2820, one exercise: the spread keeps every field,
    [details] is replaced. *)
Definition materializeExercise (currentPlanWeek : float)
    (progressionSettings : option ProgressionSettings) (adaptiveFactor : float)
    (ex : Exercise) : Exercise :=
  {| ex_name := ex_name ex;
     ex_type := ex_type ex;
     ex_baselineDetails := ex_baselineDetails ex;
     ex_details :=
       match or_else (ex_details ex) (ex_baselineDetails ex) with
       | Some _ =>
           match or_else (ex_baselineDetails ex) (ex_details ex) with
           | Some base =>
               Some (applyProgression Math_pow base currentPlanWeek
                       (default defaultProgressionSettings progressionSettings)
                       (Some adaptiveFactor))
           | None => None
           end
       | None => None
       end |}.

(** App.jsx:2808-2821, one day. *)
Definition materializeDay (currentPlanWeek : float)
    (progressionSettings : option ProgressionSettings) (adaptiveFactor : float)
    (d : DayTemplate) : DayTemplate :=
  {| day_label := day_label d;
     day_focus := day_focus d;
     day_exercises :=
       List.map (materializeExercise currentPlanWeek progressionSettings
                   adaptiveFactor) (day_exercises d) |}.

(** [currentWeek.days], App.jsx:2806-2822. *)
Definition currentWeekDays (days : list DayTemplate) (currentPlanWeek : float)
    (progressionSettings : option ProgressionSettings) (adaptiveFactor : float)
    : list DayTemplate :=
  List.map (materializeDay currentPlanWeek progressionSettings adaptiveFactor) days.

End Dashboard.

(** [days.find(d => d.day === todayDayName)], App.jsx:2824. *)
Definition todayData (days : list DayTemplate) (todayDayName : string)
    : option DayTemplate :=
  List.find (fun d => String.eqb (day_label d) todayDayName) days.

(** ** Helper functions *)




(** [s.includes(k)] *)
Fixpoint includes (s k : string) : bool :=
  String.prefix k s
  || match s with
     | String _ r => includes r k
     | EmptyString => false
     end.

(** A string holds a decimal digit. *)
Fixpoint has_digit (s : string) : bool :=
  match s with
  | String c r => is_digit c || has_digit r
  | EmptyString => false
  end.

(** A string holds a character of [[0-9.-]]. *)
Fixpoint has_numeric (s : string) : bool :=
  match s with
  | String c r =>
      is_digit c || Ascii.eqb c "." || Ascii.eqb c "-" || has_numeric r
  | EmptyString => false
  end.

(** Every character of the string is a decimal digit. *)
Fixpoint all_digits (s : string) : bool :=
  match s with
  | String c r => is_digit c && all_digits r
  | EmptyString => true
  end.

(** Later first, or at the same instant: the order of the history. *)
Definition notEarlier (a b : LogEntry) : Prop :=
  default 0 (completedAt b) <= default 0 (completedAt a).

(** ** Editing the base week

    The handlers of [EditPlanView], App.jsx:3351-3410, on the days of
    [editedPlan.baseWeek]. A handler that reads a property of [undefined]
    throws: [None]. *)

(** The exercise pushed by [addExercise], App.jsx:3372-3376. *)
Definition newExercise : Exercise :=
  {| ex_name := "New Exercise";
     ex_type := "repsSetsWeight";
     ex_baselineDetails :=
       Some (<["sets" := JsNumber 3]> (<["reps" := JsString "10"]>
             (<["weight" := JsString "Bodyweight"]>
              (<["rest" := JsNumber 60]> ∅))));
     ex_details := None |}.

(** The baseline given to an exercise by its new type, App.jsx:3399-3405. *)
Definition typeDefaults (newType : string) : gmap string JsValue :=
  if String.eqb newType "timer" then
    <["sets" := JsNumber 1]> (<["duration" := JsNumber 600]>
    (<["rest" := JsNumber 0]>
     (<["description" := JsString "Exercise description"]> ∅)))
  else if String.eqb newType "hangboard" then
    <["sets" := JsNumber 5]> (<["duration" := JsNumber 10]>
    (<["rest" := JsNumber 30]>
     (<["description" := JsString "Hangboard exercise"]> ∅)))
  else
    <["sets" := JsNumber 3]> (<["reps" := JsString "10"]>
    (<["weight" := JsString "Bodyweight"]> (<["rest" := JsNumber 60]> ∅))).

(** The text up to the first ['.'], and the text after it if there is one. *)
Fixpoint split_dot (s : string) : string * option string :=
  match s with
  | String c r =>
      if Ascii.eqb c "." then (EmptyString, Some r)
      else let '(a, b) := split_dot r in (String c a, b)
  | EmptyString => (EmptyString, None)
  end.

(** [field.split('.')[1]] *)
Definition second_segment (field : string) : option string :=
  match split_dot field with
  | (_, Some rest) => Some (fst (split_dot rest))
  | (_, None) => None
  end.

(** The two kinds of call of [updateExercise]: the field ['name'] with
    the new name, or another field path with the value to store. *)
Inductive Edit :=
  | EditName (value : string)
  | EditField (field : string) (value : JsValue).

(** [updateExercise] on one exercise, App.jsx:3355-3366. *)
Definition editExercise (edit : Edit) (exercise : Exercise) : Exercise :=
  match edit with
  | EditName value =>
      {| ex_name := value; ex_type := ex_type exercise;
         ex_baselineDetails := ex_baselineDetails exercise;
         ex_details := ex_details exercise |}
  | EditField field value =>
      if String.prefix "details." field || String.prefix "baselineDetails." field
      then
        let detailField := default EmptyString (second_segment field) in
        match ex_baselineDetails exercise with
        | Some baseline =>
            {| ex_name := ex_name exercise; ex_type := ex_type exercise;
               ex_baselineDetails := Some (<[detailField := value]> baseline);
               ex_details := ex_details exercise |}
        | None =>
            {| ex_name := ex_name exercise; ex_type := ex_type exercise;
               ex_baselineDetails := None;
               ex_details :=
                 Some (<[detailField := value]> (default ∅ (ex_details exercise))) |}
        end
      else exercise
  end.

(** An edit reads the exercise only for the field ['name'] and for a
    details path. *)
Definition readsExercise (edit : Edit) : bool :=
  match edit with
  | EditName _ => true
  | EditField field _ =>
      String.prefix "details." field || String.prefix "baselineDetails." field
  end.

Section EditPlan.

Variables (days : list DayTemplate) (selectedDay : nat).

Definition withExercises (f : list Exercise -> option (list Exercise))
    : option (list DayTemplate) :=
  match days !! selectedDay with
  | Some d =>
      match f (day_exercises d) with
      | Some exercises =>
          Some (<[selectedDay :=
                    {| day_label := day_label d; day_focus := day_focus d;
                       day_exercises := exercises |}]> days)
      | None => None
      end
  | None => None
  end.

(** [updateExercise], App.jsx:3351. *)
Definition updateExercise (exerciseIndex : nat) (edit : Edit)
    : option (list DayTemplate) :=
  withExercises (fun exercises =>
    match exercises !! exerciseIndex with
    | Some exercise =>
        Some (<[exerciseIndex := editExercise edit exercise]> exercises)
    | None => if readsExercise edit then None else Some exercises
    end).

(** [addExercise], App.jsx:3370. *)
Definition addExercise : option (list DayTemplate) :=
  withExercises (fun exercises => Some (exercises ++ [newExercise])).

(** [deleteExercise], App.jsx:3380: [splice(exerciseIndex, 1)] removes
    nothing past the end. *)
Definition deleteExercise (exerciseIndex : nat) : option (list DayTemplate) :=
  withExercises (fun exercises => Some (delete exerciseIndex exercises)).

(** [changeDayFocus], App.jsx:3387. *)
Definition changeDayFocus (value : string) : option (list DayTemplate) :=
  match days !! selectedDay with
  | Some d =>
      Some (<[selectedDay :=
                {| day_label := day_label d; day_focus := value;
                   day_exercises := day_exercises d |}]> days)
  | None => None
  end.

(** [changeExerciseType], App.jsx:3393. *)
Definition changeExerciseType (exerciseIndex : nat) (newType : string)
    : option (list DayTemplate) :=
  withExercises (fun exercises =>
    match exercises !! exerciseIndex with
    | Some exercise =>
        Some (<[exerciseIndex :=
                  {| ex_name := ex_name exercise; ex_type := newType;
                     ex_baselineDetails := Some (typeDefaults newType);
                     ex_details := None |}]> exercises)
    | None => None
    end).

End EditPlan.

(** The exercise has a [baselineDetails], as those of the templates. *)
Definition hasBaseline (ex : Exercise) : bool :=
  match ex_baselineDetails ex with Some _ => true | None => false end.

(** Every exercise of every day has one. *)
Definition allBaselined (days : list DayTemplate) : Prop :=
  List.Forall (fun d => List.Forall (fun ex => hasBaseline ex = true)
                          (day_exercises d)) days.

(** ** The interval timer

    [TimerComponent], App.jsx:2191: the state and one run of the interval
    callback (App.jsx:2214-2232) on whole seconds. The second component
    tells whether [onComplete] was called. *)
Record TimerState := {
  timeLeft : Z;
  isResting : bool;
  currentSet : Z;
  isActive : bool;
}.

Definition timerTick (sets duration rest : Z) (s : TimerState)
    : TimerState * bool :=
  if timeLeft s <=? 1 then
    if negb (isResting s) then
      if currentSet s <? sets then
        ({| timeLeft := rest; isResting := true;
            currentSet := currentSet s; isActive := isActive s |}, false)
      else
        ({| timeLeft := 0; isResting := isResting s;
            currentSet := currentSet s; isActive := false |}, true)
    else
      ({| timeLeft := duration; isResting := false;
          currentSet := currentSet s + 1; isActive := isActive s |}, false)
  else
    ({| timeLeft := timeLeft s - 1; isResting := isResting s;
        currentSet := currentSet s; isActive := isActive s |}, false).

(** [n] seconds of the interval, which runs while [isActive]; the count
    is the number of calls of [onComplete]. *)
Fixpoint timerRun (sets duration rest : Z) (n : nat) (s : TimerState)
    : TimerState * nat :=
  match n with
  | O => (s, O)
  | S k =>
      if isActive s then
        let '(s', done) := timerTick sets duration rest s in
        let '(s'', count) := timerRun sets duration rest k s' in
        (s'', ((if done then 1 else 0) + count)%nat)
      else (s, O)
  end.

(** The state of a started timer, App.jsx:2194-2197 and [startTimer]. *)
Definition timerStart (duration : Z) : TimerState :=
  {| timeLeft := duration; isResting := false; currentSet := 1;
     isActive := true |}.

(** The phases of a run: a set being worked, the rest after it, the last
    second of the last set, and the stopped timer; the seconds a work and
    a rest phase take (a phase of less than a second takes one), and
    those of all the sets with the rests between them. *)
Section TimerPhases.

Variables sets duration rest : Z.

Definition working (set : Z) : TimerState :=
  {| timeLeft := duration; isResting := false; currentSet := set;
     isActive := true |}.

Definition resting (set : Z) : TimerState :=
  {| timeLeft := rest; isResting := true; currentSet := set;
     isActive := true |}.

Definition lastSecond : TimerState :=
  {| timeLeft := Z.min duration 1; isResting := false; currentSet := sets;
     isActive := true |}.

Definition finished : TimerState :=
  {| timeLeft := 0; isResting := false; currentSet := sets;
     isActive := false |}.

Definition workSeconds : nat := Z.to_nat (Z.max duration 1).

Definition restSeconds : nat := Z.to_nat (Z.max rest 1).

Definition totalSeconds : nat :=
  Z.to_nat (sets * Z.max duration 1 + (sets - 1) * Z.max rest 1).

End TimerPhases.

(** ** Doubles through their specification *)

Definition SFzero (x : spec_float) : bool :=
  match x with S754_zero _ => true | _ => false end.

Definition SFfinite (x : spec_float) : bool :=
  match x with S754_zero _ | S754_finite _ _ _ => true | _ => false end.

(** ** Example data *)

Definition logged (week : float) (stamp : option Z) : LogEntry :=
  {| planName := "V4-V5 Bouldering Progression"; weekNumber := Some week;
     day := "Monday"; completedAt := stamp; profileId := Some "default" |}.

(** Four week-1 entries whose [completedAt] is not a [Timestamp]. *)
Definition unstamped_history : list LogEntry :=
  [logged 1 None; logged 1 None; logged 1 None; logged 1 None].

Definition mixed_history : list LogEntry :=
  [logged 1 (Some 86400000); logged 2 (Some 691200000);
   logged 2 (Some 777600000); logged 3 (Some 1296000000);
   logged 7 (Some 3715200000)].

(** The hangboard exercise of the climbing template, App.jsx:1515. *)
Definition hangboard_details : gmap string JsValue :=
  <["sets" := JsNumber 3]> (<["reps" := JsString "10s"]>
  (<["weight" := JsString "Bodyweight"]> (<["rest" := JsNumber 180]> ∅))).

(** Linear progression, [increments.reps = 2], [userMultiplier = 1.0]. *)
Definition reps_by_two : ProgressionSettings :=
  {| strategy := Some "linear"; increments := <["reps" := 2%float]> ∅;
     userMultiplier := Some 1%float |}.

(** Monday and Tuesday of the climbing template, App.jsx:1510-1524. *)
Definition warm_up : Exercise :=
  {| ex_name := "Warm-up"; ex_type := "timer";
     ex_baselineDetails :=
       Some (<["sets" := JsNumber 1]> (<["duration" := JsNumber 600]>
             (<["rest" := JsNumber 0]>
              (<["description" :=
                   JsString "10-min easy climbing warm-up"]> ∅))));
     ex_details := None |}.

Definition half_crimp : Exercise :=
  {| ex_name := "Hangboard - Half Crimp"; ex_type := "repsSetsWeight";
     ex_baselineDetails := Some hangboard_details;
     ex_details := None |}.

Definition climbing_monday : DayTemplate :=
  {| day_label := "Monday"; day_focus := "Finger Strength";
     day_exercises := [warm_up; half_crimp] |}.

Definition climbing_tuesday : DayTemplate :=
  {| day_label := "Tuesday"; day_focus := "Rest"; day_exercises := [] |}.

(** * Properties *)

(** ** Order and arithmetic of doubles *)

Section DoubleFacts.

#[local] Open Scope float_scope.

Lemma SFcompare_swap x y :
  SFcompare y x = option_map CompOpp (SFcompare x y).
Proof.
  destruct x as [sx|sx| |sx mx ex], y as [sy|sy| |sy my ey]; simpl;
    try destruct sx; try destruct sy; simpl; try reflexivity.
  all: change (Pos.compare_cont Eq ?a ?b) with (Pos.compare a b).
  all: rewrite (Z.compare_antisym ex ey), (Pos.compare_antisym mx my);
    destruct (ex ?= ey)%Z; simpl; try reflexivity.
  all: destruct (mx ?= my)%positive; reflexivity.
Qed.

Lemma SFcompare_refl x : x <> S754_nan -> SFcompare x x = Some Eq.
Proof.
  destruct x as [s|s| |s m e]; simpl; intros H; try congruence.
  - destruct s; reflexivity.
  - rewrite Z.compare_refl.
    change (Pos.compare_cont Eq m m) with (Pos.compare m m).
    rewrite Pos.compare_refl. destruct s; reflexivity.
Qed.

Lemma SFleb_trans x y z :
  SFleb x y = true -> SFleb y z = true -> SFleb x z = true.
Proof.
  unfold SFleb.
  destruct x as [sx|sx| |sx mx ex], y as [sy|sy| |sy my ey],
    z as [sz|sz| |sz mz ez]; simpl;
    try destruct sx; try destruct sy; try destruct sz; simpl;
    try congruence; try reflexivity.
  all: change (Pos.compare_cont Eq ?a ?b) with (Pos.compare a b).
  all: destruct (Z.compare_spec ex ey), (Z.compare_spec ey ez),
         (Z.compare_spec ex ez); try congruence; try lia; subst.
  all: destruct (Pos.compare_spec mx my), (Pos.compare_spec my mz),
         (Pos.compare_spec mx mz); simpl; try congruence; try lia.
Qed.

Lemma leb_trans x y z :
  (x <=? y) = true -> (y <=? z) = true -> (x <=? z) = true.
Proof. rewrite !FloatAxioms.leb_spec. apply SFleb_trans. Qed.

Lemma ltb_leb_false x y : (x <? y) = true -> (y <=? x) = false.
Proof.
  rewrite FloatAxioms.ltb_spec, FloatAxioms.leb_spec. unfold SFltb, SFleb.
  rewrite (SFcompare_swap (Prim2SF x) (Prim2SF y)).
  destruct (SFcompare (Prim2SF x) (Prim2SF y)) as [[]|]; simpl; congruence.
Qed.

Lemma leb_ltb_false x y : (x <=? y) = true -> (y <? x) = false.
Proof.
  rewrite FloatAxioms.ltb_spec, FloatAxioms.leb_spec. unfold SFltb, SFleb.
  rewrite (SFcompare_swap (Prim2SF x) (Prim2SF y)).
  destruct (SFcompare (Prim2SF x) (Prim2SF y)) as [[]|]; simpl; congruence.
Qed.

Lemma Prim2SF_finite x : is_finite x = true -> SFfinite (Prim2SF x) = true.
Proof.
  unfold is_finite, Prim2SF. intros H.
  destruct (is_nan x); [discriminate H|].
  destruct (is_infinity x); [discriminate H|].
  destruct (is_zero x); [reflexivity|].
  destruct (Z.frexp x) as [r ex].
  destruct (shr_fexp _ _ _ _ _) as [mrs e']. destruct (shr_m mrs); reflexivity.
Qed.

Lemma SFzero_finite x : SFzero x = true -> SFfinite x = true.
Proof. destruct x; simpl; congruence. Qed.

Lemma mul_zero_l a b :
  SFzero (Prim2SF a) = true -> SFfinite (Prim2SF b) = true ->
  SFzero (Prim2SF (a * b)) = true.
Proof.
  rewrite mul_spec. unfold SF64mul.
  destruct (Prim2SF a), (Prim2SF b); simpl; congruence.
Qed.

Lemma mul_zero_r a b :
  SFfinite (Prim2SF a) = true -> SFzero (Prim2SF b) = true ->
  SFzero (Prim2SF (a * b)) = true.
Proof.
  rewrite mul_spec. unfold SF64mul.
  destruct (Prim2SF a), (Prim2SF b); simpl; congruence.
Qed.

Lemma is_zero_SFzero x : is_zero x = true -> SFzero (Prim2SF x) = true.
Proof.
  unfold is_zero. rewrite FloatAxioms.eqb_spec. unfold SFeqb.
  change (Prim2SF zero) with (S754_zero false).
  destruct (Prim2SF x) as [s|s| |s m e]; simpl; try congruence;
    destruct s; congruence.
Qed.

(** Adding a zero leaves a finite double equal to itself ([-0 + 0] is
    [0], which [==] does not tell from [-0]). *)
Lemma add_zero_r x z :
  SFfinite (Prim2SF x) = true -> SFzero (Prim2SF z) = true -> (x + z =? x) = true.
Proof.
  intros Hx Hz. rewrite FloatAxioms.eqb_spec, add_spec. unfold SF64add, SFeqb.
  destruct (Prim2SF x) as [sx|sx| |sx mx ex] eqn:Ex, (Prim2SF z) as [sz| | |];
    simpl in *; try congruence.
  - destruct sx, sz; reflexivity.
  - rewrite Z.compare_refl.
    change (Pos.compare_cont Eq mx mx) with (Pos.compare mx mx).
    rewrite Pos.compare_refl. destruct sx; reflexivity.
Qed.

Lemma eqb_refl_finite x : SFfinite (Prim2SF x) = true -> (x =? x) = true.
Proof.
  intros H. rewrite FloatAxioms.eqb_spec. unfold SFeqb.
  rewrite SFcompare_refl; [reflexivity|].
  destruct (Prim2SF x); simpl in *; congruence.
Qed.

Lemma digits2_pos_shift52 m :
  (Zpos (digits2_pos (m * 4503599627370496)) = Zpos (digits2_pos m) + 52)%Z.
Proof. rewrite Pos.mul_comm. cbv [Pos.mul]. cbn [digits2_pos]. lia. Qed.

Lemma shr_52 m e :
  shr (shr_record_of_loc (Zpos (4503599627370496 * m)) loc_Exact) e 52 =
  ({| shr_m := Zpos m; shr_r := false; shr_s := false |}, (e + 52)%Z).
Proof. reflexivity. Qed.

(** Multiplying by 1 is exact: the product of the mantissas is shifted
    back by the 52 bits that the mantissa of 1 adds. *)
Lemma mul_one_r x : x * 1 = x.
Proof.
  apply Prim2SF_inj. rewrite mul_spec.
  pose proof (Prim2SF_valid x) as V.
  change (Prim2SF 1) with (S754_finite false 4503599627370496 (-52)).
  unfold SF64mul. destruct (Prim2SF x) as [s|s| |s m e]; simpl SFmul.
  - now rewrite xorb_false_r.
  - now rewrite xorb_false_r.
  - reflexivity.
  - simpl in V. unfold bounded, canonical_mantissa in V.
    apply andb_true_iff in V. destruct V as [C B].
    apply Z.eqb_eq in C.
    rewrite xorb_false_r.
    unfold binary_round_aux, shr_fexp.
    cbn [Zdigits2]. rewrite digits2_pos_shift52.
    replace (Z.pos (digits2_pos m) + 52 + (e + -52))%Z
      with (Z.pos (digits2_pos m) + e)%Z by lia.
    rewrite C. replace (e - (e + -52))%Z with 52%Z by lia.
    rewrite (Pos.mul_comm m), shr_52.
    cbn [loc_of_shr_record shr_m round_nearest_even Zdigits2].
    replace (e + -52 + 52)%Z with e by lia.
    rewrite C, Z.sub_diag. cbn [shr shr_record_of_loc shr_m].
    now rewrite B.
Qed.

End DoubleFacts.

(** ** The value projector *)

Section ValueProjector.

#[local] Open Scope float_scope.

(** Every strategy other than ['percentage'] takes the linear branch, and
    absent arguments count as [1.0] and ['linear']. *)
Lemma calculateProgressiveValue_not_percentage pow v w inc mult strat fac :
  strat <> Some "percentage"%string ->
  calculateProgressiveValue pow v w inc mult strat fac =
  v + inc * (w - 1) * default 1 mult * default 1 fac.
Proof.
  intros H. unfold calculateProgressiveValue.
  destruct (String.eqb_spec (default "linear"%string strat) "percentage") as [E|E];
    [|reflexivity].
  destruct strat as [s|]; simpl in E; [congruence|discriminate E].
Qed.

(** C1. Under the ['linear'] strategy [calculateProgressiveValue] returns
    [baseValue + increment * (weekNumber - 1) * userMultiplier *
    adaptiveFactor], and under ['percentage'] it returns [baseValue *
    Math.pow(1 + increment / 100, (weekNumber - 1) * userMultiplier *
    adaptiveFactor)], the operations being those of doubles, in the order
    written. This holds for all doubles, so for finite ones and every week
    number from 1 on. *)
Theorem calculateProgressiveValue_formula
    pow baseValue weekNumber increment userMultiplier adaptiveFactor :
  calculateProgressiveValue pow baseValue weekNumber increment
    (Some userMultiplier) (Some "linear"%string) (Some adaptiveFactor)
  = baseValue + increment * (weekNumber - 1) * userMultiplier * adaptiveFactor
  /\
  calculateProgressiveValue pow baseValue weekNumber increment
    (Some userMultiplier) (Some "percentage"%string) (Some adaptiveFactor)
  = baseValue * pow (1 + increment / 100)
                    ((weekNumber - 1) * userMultiplier * adaptiveFactor).
Proof.
  split.
  - now rewrite calculateProgressiveValue_not_percentage.
  - reflexivity.
Qed.

(** At week 1 the exponent and the linear addend are zeros. *)
Lemma week1_progress_zero mult fac :
  is_finite mult = true -> is_finite fac = true ->
  SFzero (Prim2SF ((1 - 1) * mult * fac)) = true.
Proof.
  intros Hm Hf.
  apply mul_zero_l; [apply mul_zero_l|]; auto using Prim2SF_finite.
Qed.

Lemma SFzero_is_zero x : SFzero (Prim2SF x) = true -> is_zero x = true.
Proof.
  unfold is_zero. rewrite FloatAxioms.eqb_spec. unfold SFeqb.
  change (Prim2SF zero) with (S754_zero false).
  destruct (Prim2SF x); simpl; congruence.
Qed.

(** C7. Week-1 identity: for finite [baseValue], [increment],
    [userMultiplier] and [adaptiveFactor] and every strategy,
    [calculateProgressiveValue] at week 1 returns a value [==] to
    [baseValue]. [Math.pow] is any function that gives 1 for a zero
    exponent, as ECMA-262 requires. *)
Theorem week1_identity pow v inc mult strat fac :
  (forall b e, is_zero e = true -> pow b e = 1) ->
  is_finite v = true -> is_finite inc = true ->
  is_finite mult = true -> is_finite fac = true ->
  (calculateProgressiveValue pow v 1 inc (Some mult) strat (Some fac) =? v) = true.
Proof.
  intros Hpow Hv Hi Hm Hf.
  pose proof (week1_progress_zero mult fac Hm Hf) as Hz.
  unfold calculateProgressiveValue. cbn [from_option id].
  destruct (String.eqb _ _).
  - rewrite Hpow by now apply SFzero_is_zero.
    rewrite mul_one_r. now apply eqb_refl_finite, Prim2SF_finite.
  - apply add_zero_r; [now apply Prim2SF_finite|].
    apply mul_zero_l; [apply mul_zero_l; [apply mul_zero_r|]|];
      auto using Prim2SF_finite.
Qed.

Lemma pow_integral_zero_exponent b e : is_zero e = true -> pow_integral b e = 1.
Proof. intros H. unfold pow_integral. now rewrite H. Qed.

Lemma week1_identity_witness :
  (calculateProgressiveValue pow_integral 80 1 2.5 (Some 1.5)
     (Some "percentage"%string) (Some 1.1) =? 80) = true
  /\ (calculateProgressiveValue pow_integral 80 1 2.5 (Some 1.5)
        (Some "linear"%string) (Some 1.1) =? 80) = true.
Proof.
  split; apply (week1_identity pow_integral);
    solve [ exact pow_integral_zero_exponent | reflexivity ].
Defined.

(** Apart from a baseline of [-0] the week-1 value is the baseline itself. *)
Lemma week1_identity_exact pow v inc mult strat fac :
  (forall b e, is_zero e = true -> pow b e = 1) ->
  is_finite v = true -> is_finite inc = true ->
  is_finite mult = true -> is_finite fac = true ->
  is_zero v = false ->
  calculateProgressiveValue pow v 1 inc (Some mult) strat (Some fac) = v.
Proof.
  intros Hpow Hv Hi Hm Hf Hnz.
  pose proof (week1_progress_zero mult fac Hm Hf) as Hz.
  unfold calculateProgressiveValue. cbn [from_option id].
  destruct (String.eqb _ _).
  - rewrite Hpow by now apply SFzero_is_zero. apply mul_one_r.
  - assert (SFzero (Prim2SF v) = false) as Hv0.
    { destruct (SFzero (Prim2SF v)) eqn:E; [|reflexivity].
      apply SFzero_is_zero in E. congruence. }
    match goal with
    | |- _ + ?a = _ =>
        assert (SFzero (Prim2SF a) = true) as Ha
          by (apply mul_zero_l; [apply mul_zero_l; [apply mul_zero_r|]|];
              auto using Prim2SF_finite);
        revert Ha; generalize a; intros z Ha
    end.
    apply Prim2SF_inj. rewrite add_spec. unfold SF64add.
    destruct (Prim2SF v), (Prim2SF z); simpl in *; congruence.
Qed.

End ValueProjector.

(** ** The adherence analyzer *)

Section AdherenceAnalyzer.

#[local] Open Scope float_scope.

Lemma recentWorkouts_In history currentWeek log :
  In log (recentWorkouts history currentWeek) <->
  In log history /\
  exists n, weekNumber log = Some n
            /\ (currentWeek - 3 <=? n) = true /\ (n <? currentWeek) = true.
Proof.
  unfold recentWorkouts. rewrite filter_In. unfold inWindow.
  split; intros [Hin H]; split; trivial.
  - destruct (weekNumber log) as [n|]; [|discriminate H].
    apply andb_prop in H. destruct H. eauto.
  - destruct H as (n & -> & H1 & H2). now rewrite H1, H2.
Qed.

Lemma calculateAdaptiveFactor_few history currentWeek :
  (length (recentWorkouts history currentWeek) < 3)%nat ->
  calculateAdaptiveFactor history currentWeek = 1.
Proof.
  intros H. unfold calculateAdaptiveFactor.
  apply Nat.ltb_lt in H. now rewrite H.
Qed.

Lemma calculateAdaptiveFactor_enough history currentWeek :
  (3 <= length (recentWorkouts history currentWeek))%nat ->
  calculateAdaptiveFactor history currentWeek =
  adaptiveTier (completionRate (recentWorkouts history currentWeek) currentWeek).
Proof.
  intros H. unfold calculateAdaptiveFactor.
  apply Nat.ltb_ge in H. now rewrite H.
Qed.

Lemma adaptiveTier_values r :
  adaptiveTier r = 0.9 \/ adaptiveTier r = 0.95
  \/ adaptiveTier r = 1.0 \/ adaptiveTier r = 1.1.
Proof.
  unfold adaptiveTier.
  destruct (0.9 <=? r), (0.7 <=? r), (0.5 <=? r); auto.
Qed.

Lemma adaptiveTier_monotone r1 r2 :
  (r1 <=? r2) = true -> (adaptiveTier r1 <=? adaptiveTier r2) = true.
Proof.
  intros H. unfold adaptiveTier.
  destruct (0.9 <=? r2) eqn:E9.
  { destruct (0.9 <=? r1), (0.7 <=? r1), (0.5 <=? r1); reflexivity. }
  destruct (0.9 <=? r1) eqn:F9.
  { rewrite (leb_trans _ _ _ F9 H) in E9. discriminate E9. }
  destruct (0.7 <=? r2) eqn:E7.
  { destruct (0.7 <=? r1), (0.5 <=? r1); reflexivity. }
  destruct (0.7 <=? r1) eqn:F7.
  { rewrite (leb_trans _ _ _ F7 H) in E7. discriminate E7. }
  destruct (0.5 <=? r2) eqn:E5.
  { destruct (0.5 <=? r1); reflexivity. }
  destruct (0.5 <=? r1) eqn:F5.
  { rewrite (leb_trans _ _ _ F5 H) in E5. discriminate E5. }
  reflexivity.
Qed.

(** C4. With at least 3 qualifying entries the adaptive factor is
    [adaptiveTier] of the completion rate, and [adaptiveTier] is a
    non-decreasing step function with the values 0.9, 0.95, 1.0 and 1.1:
    a rate [>= 0.9] gives 1.1, one in [0.7, 0.9) gives 1.0, one in
    [0.5, 0.7) gives 0.95 and one below 0.5 gives 0.9; the boundary rates
    0.5, 0.7 and 0.9 map to the higher tier. *)
Theorem adaptiveTier_step :
  (forall history currentWeek,
      (3 <= length (recentWorkouts history currentWeek))%nat ->
      calculateAdaptiveFactor history currentWeek =
      adaptiveTier (completionRate (recentWorkouts history currentWeek) currentWeek))
  /\ (forall r, adaptiveTier r = 0.9 \/ adaptiveTier r = 0.95
                \/ adaptiveTier r = 1.0 \/ adaptiveTier r = 1.1)
  /\ (forall r, (0.9 <=? r) = true -> adaptiveTier r = 1.1)
  /\ (forall r, (0.7 <=? r) = true -> (r <? 0.9) = true -> adaptiveTier r = 1.0)
  /\ (forall r, (0.5 <=? r) = true -> (r <? 0.7) = true -> adaptiveTier r = 0.95)
  /\ (forall r, (r <? 0.5) = true -> adaptiveTier r = 0.9)
  /\ (adaptiveTier 0.5 = 0.95 /\ adaptiveTier 0.7 = 1.0 /\ adaptiveTier 0.9 = 1.1)
  /\ (forall r1 r2, (r1 <=? r2) = true ->
                    (adaptiveTier r1 <=? adaptiveTier r2) = true).
Proof.
  split; [exact calculateAdaptiveFactor_enough|].
  split; [exact adaptiveTier_values|].
  repeat split.
  - intros r H. unfold adaptiveTier. now rewrite H.
  - intros r H7 H9. unfold adaptiveTier.
    now rewrite (ltb_leb_false _ _ H9), H7.
  - intros r H5 H7. unfold adaptiveTier.
    assert ((0.9 <=? r) = false) as ->.
    { destruct (0.9 <=? r) eqn:E; [|reflexivity].
      assert ((0.7 <=? r) = true) as F by (apply (leb_trans _ 0.9); auto).
      rewrite (ltb_leb_false _ _ H7) in F. discriminate F. }
    now rewrite (ltb_leb_false _ _ H7), H5.
  - intros r H. unfold adaptiveTier.
    pose proof (ltb_leb_false _ _ H) as H5.
    assert ((0.7 <=? r) = false) as H7.
    { destruct (0.7 <=? r) eqn:E; [|reflexivity].
      assert ((0.5 <=? r) = true) as F by (apply (leb_trans _ 0.7); auto).
      congruence. }
    assert ((0.9 <=? r) = false) as H9.
    { destruct (0.9 <=? r) eqn:E; [|reflexivity].
      assert ((0.5 <=? r) = true) as F by (apply (leb_trans _ 0.9); auto).
      congruence. }
    now rewrite H9, H7, H5.
  - exact adaptiveTier_monotone.
Qed.

Lemma adaptiveTier_step_witness :
  adaptiveTier 0.75 = 1.0 /\ (adaptiveTier 0.25 <=? adaptiveTier 0.75) = true.
Proof.
  destruct adaptiveTier_step as (_ & _ & _ & H7 & _ & _ & _ & Hmono).
  split; [apply H7 | apply Hmono]; reflexivity.
Defined.

(** C5. The qualifying entries are those whose week number [n] satisfies
    [currentWeek - 3 <= n < currentWeek]; with fewer than 3 of them the
    result is 1.0, otherwise the completion rate is their count divided by
    [Math.min(3, currentWeek - 1) * 4]. *)
Theorem calculateAdaptiveFactor_window history currentWeek :
  let recent := recentWorkouts history currentWeek in
  (forall log,
      In log recent <->
      In log history /\
      exists n, weekNumber log = Some n
                /\ (currentWeek - 3 <=? n) = true /\ (n <? currentWeek) = true)
  /\ ((length recent < 3)%nat -> calculateAdaptiveFactor history currentWeek = 1.0)
  /\ ((3 <= length recent)%nat ->
      calculateAdaptiveFactor history currentWeek =
      adaptiveTier (float_of_Z (Z.of_nat (length recent))
                    / (Math_min 3 (currentWeek - 1) * 4))).
Proof.
  intros recent. split; [|split].
  - intros log. apply recentWorkouts_In.
  - apply calculateAdaptiveFactor_few.
  - intros H. now rewrite calculateAdaptiveFactor_enough.
Qed.

Lemma calculateAdaptiveFactor_window_witness :
  calculateAdaptiveFactor [logged 1 None] 2 = 1.0
  /\ calculateAdaptiveFactor mixed_history 4 = 0.9.
Proof.
  split.
  - apply (calculateAdaptiveFactor_window [logged 1 None] 2). cbn. lia.
  - destruct (calculateAdaptiveFactor_window mixed_history 4) as (_ & _ & H).
    rewrite H; [reflexivity | cbn; lia].
Defined.

End AdherenceAnalyzer.

Section AdherenceHistory.

#[local] Open Scope float_scope.

(** C9. At [currentWeek = 1], when every entry carries a week number
    [>= 1], no entry qualifies and [calculateAdaptiveFactor] returns 1.0
    through the insufficient-data branch: the completion rate, whose
    denominator would be [Math.min(3, 0) * 4 = 0], is not computed. *)
Theorem calculateAdaptiveFactor_week1 history :
  Forall (fun log => exists n, weekNumber log = Some n /\ (1 <=? n) = true)
         history ->
  recentWorkouts history 1 = [] /\ calculateAdaptiveFactor history 1 = 1.0.
Proof.
  intros H.
  assert (recentWorkouts history 1 = []) as E.
  { induction H as [|log l (n & Hn & Hle) _ IH]; [reflexivity|].
    unfold recentWorkouts in *. cbn [List.filter]. unfold inWindow at 1.
    rewrite Hn, (leb_ltb_false _ _ Hle), andb_false_r. exact IH. }
  split; [exact E|].
  apply calculateAdaptiveFactor_few. rewrite E. cbn. lia.
Qed.

Lemma calculateAdaptiveFactor_week1_witness :
  recentWorkouts mixed_history 1 = []
  /\ calculateAdaptiveFactor mixed_history 1 = 1.0.
Proof.
  apply (calculateAdaptiveFactor_week1 mixed_history).
  unfold mixed_history, logged.
  repeat constructor; eexists; (split; [reflexivity|reflexivity]).
Defined.

(** The result depends on the history through the number of qualifying
    entries only. *)
Lemma calculateAdaptiveFactor_count h1 h2 currentWeek :
  length (recentWorkouts h1 currentWeek) = length (recentWorkouts h2 currentWeek) ->
  calculateAdaptiveFactor h1 currentWeek = calculateAdaptiveFactor h2 currentWeek.
Proof.
  intros H. unfold calculateAdaptiveFactor, completionRate. now rewrite H.
Qed.

Lemma recentWorkouts_hasWeekNumber history currentWeek :
  recentWorkouts (List.filter hasWeekNumber history) currentWeek =
  recentWorkouts history currentWeek.
Proof.
  unfold recentWorkouts.
  induction history as [|log l IH]; [reflexivity|].
  cbn [List.filter]. unfold hasWeekNumber at 1, inWindow at 2.
  destruct (weekNumber log) as [n|] eqn:E.
  - cbn [List.filter]. unfold inWindow at 1. rewrite E.
    destruct (_ && _); now rewrite IH.
  - exact IH.
Qed.

Lemma filter_sort_insert_length {A} (p : A -> bool) first x (l : list A) :
  length (List.filter p (sort_insert first x l)) =
  length (List.filter p (x :: l)).
Proof.
  induction l as [|y r IH]; [reflexivity|].
  cbn [sort_insert]. destruct (first y x); [|reflexivity].
  cbn [List.filter] in *. destruct (p y), (p x); cbn [length] in *; lia.
Qed.

Lemma filter_array_sort_length {A} (p : A -> bool) first (l : list A) :
  length (List.filter p (array_sort first l)) = length (List.filter p l).
Proof.
  induction l as [|x r IH]; [reflexivity|].
  cbn [array_sort fold_right]. rewrite filter_sort_insert_length.
  fold (array_sort first r). cbn [List.filter].
  destruct (p x); cbn [length]; now rewrite IH.
Qed.

Lemma filter_filter_and {A} (p q : A -> bool) (l : list A) :
  List.filter p (List.filter q l) = List.filter (fun x => q x && p x) l.
Proof.
  induction l as [|x r IH]; [reflexivity|].
  cbn [List.filter]. destruct (q x); cbn [List.filter andb]; now rewrite IH.
Qed.

(** C6, as the code has it. [calculateAdaptiveFactor] leaves out the
    entries without a [weekNumber]: its result is the one on the
    sub-history of the entries that have one. It does not read
    [completedAt]; the entries without one are dropped by the history
    listener, so on the listener's output the result is the one on the
    active profile's documents that have both fields. *)
Theorem calculateAdaptiveFactor_excludes history activeProfileId docs currentWeek :
  calculateAdaptiveFactor history currentWeek =
  calculateAdaptiveFactor (List.filter hasWeekNumber history) currentWeek
  /\
  calculateAdaptiveFactor (historyListener activeProfileId docs) currentWeek =
  calculateAdaptiveFactor
    (List.filter (fun log => hasWeekNumber log && hasCompletedAt log)
       (List.filter (ofProfile activeProfileId) docs))
    currentWeek.
Proof.
  split.
  - now rewrite calculateAdaptiveFactor_count
      with (h2 := List.filter hasWeekNumber history)
      by now rewrite recentWorkouts_hasWeekNumber.
  - apply calculateAdaptiveFactor_count.
    unfold historyListener, recentWorkouts.
    rewrite filter_array_sort_length, !filter_filter_and. f_equal.
    apply List.filter_ext. intros log. unfold hasWeekNumber, inWindow.
    destruct (weekNumber log), (hasCompletedAt log), (ofProfile _ log);
      reflexivity.
Qed.

(** C6 as stated fails: four week-1 entries without a [completedAt] are
    counted at week 2 (rate 4/4, factor 1.1), while the sub-history of
    the entries that have both fields is empty (factor 1.0). *)
Lemma completedAt_not_read :
  calculateAdaptiveFactor unstamped_history 2 = 1.1
  /\ calculateAdaptiveFactor
       (List.filter (fun log => hasWeekNumber log && hasCompletedAt log)
                    unstamped_history) 2 = 1.0
  /\ (1.1 =? 1.0) = false.
Proof. repeat split. Qed.

End AdherenceHistory.

(** ** The schedule clock *)

(** C3, as the code has it. For a nonnegative day count and a positive
    [durationWeeks] the week number is [(floor(days / 7) mod
    durationWeeks) + 1], between 1 and [durationWeeks]; with
    [durationWeeks = 12] it is 12 at day 83 and wraps to 1 at day 84. *)
Theorem planWeekOfDay_wraps diffDays durationWeeks :
  0 <= diffDays -> 0 < durationWeeks ->
  planWeekOfDay diffDays durationWeeks
  = Some ((diffDays / 7) mod durationWeeks + 1)
  /\ 1 <= (diffDays / 7) mod durationWeeks + 1 <= durationWeeks
  /\ planWeekOfDay 83 12 = Some 12
  /\ planWeekOfDay 84 12 = Some 1.
Proof.
  intros Hd Hw. unfold planWeekOfDay at 1.
  destruct (Z.eqb_spec durationWeeks 0) as [E|_]; [lia|].
  assert (0 <= diffDays / 7) as Hq by (apply Z.div_pos; lia).
  rewrite Z.rem_mod_nonneg by lia.
  pose proof (Z.mod_pos_bound (diffDays / 7) durationWeeks Hw).
  repeat split; lia.
Qed.

Lemma planWeekOfDay_wraps_witness :
  planWeekOfDay 200 12 = Some ((200 / 7) mod 12 + 1)
  /\ 1 <= (200 / 7) mod 12 + 1 <= 12
  /\ planWeekOfDay 83 12 = Some 12
  /\ planWeekOfDay 84 12 = Some 1.
Proof. apply (planWeekOfDay_wraps 200 12); lia. Defined.

(** C3 as stated fails: day 83 of a 12-week plan is in week 12, not 1. *)
Lemma planWeekOfDay_83 :
  planWeekOfDay 83 12 = Some 12 /\ planWeekOfDay 83 12 <> Some 1.
Proof. split; [reflexivity|discriminate]. Qed.

(** The clock on timestamps: the same week for a start in the future. *)
Lemma currentPlanWeek_symmetric today planStartDate durationWeeks :
  currentPlanWeek today planStartDate durationWeeks =
  currentPlanWeek planStartDate today durationWeeks.
Proof.
  unfold currentPlanWeek.
  now replace (planStartDate - today) with (- (today - planStartDate)) by lia;
    rewrite Z.abs_opp.
Qed.

(** ** Numbers printed and read back *)

Lemma is_digit_digit_char d : 0 <= d < 10 -> is_digit (digit_char d) = true.
Proof.
  intros H.
  assert (d = 0 \/ d = 1 \/ d = 2 \/ d = 3 \/ d = 4 \/ d = 5 \/ d = 6
          \/ d = 7 \/ d = 8 \/ d = 9) as C by lia.
  repeat (destruct C as [->|C]; [reflexivity|]). now subst d.
Qed.

Lemma digits_acc_head fuel z acc :
  exists c r, digits_acc fuel z acc = String c r /\ is_digit c = true.
Proof.
  revert z acc. induction fuel as [|f IH]; intros z acc; cbn [digits_acc].
  - eexists _, _. split; [reflexivity|].
    apply is_digit_digit_char, Z.mod_pos_bound. lia.
  - destruct (z <? 10); [|apply IH].
    eexists _, _. split; [reflexivity|].
    apply is_digit_digit_char, Z.mod_pos_bound. lia.
Qed.

Lemma render_decimal_head skn :
  exists c r, render_decimal skn = String c r /\ is_digit c = true.
Proof.
  destruct skn as [[s k] n]. unfold render_decimal, decimal_digits.
  destruct (digits_acc_head (Z.to_nat (Z.log2 s)) s EmptyString)
    as (c & r & -> & D).
  destruct ((k <=? n) && (n <=? 21)); [cbn; eauto|].
  destruct ((0 <? n) && (n <=? 21)) eqn:E.
  { apply andb_prop in E. destruct E as [E _]. apply Z.ltb_lt in E.
    destruct (Z.to_nat n) as [|j] eqn:N; [lia|].
    cbn [split_at]. destruct (split_at j r). cbn. eauto. }
  destruct ((-6 <? n) && (n <=? 0)); [eexists _, _; split; reflexivity|].
  destruct r; eauto.
Qed.

Lemma is_digit_not_sign c :
  is_digit c = true ->
  is_white_space c = false /\ Ascii.eqb c "-" = false
  /\ Ascii.eqb c "+" = false /\ c <> "I"%char.
Proof.
  destruct c as [[] [] [] [] [] [] [] []]; vm_compute; intros H;
    try discriminate H; repeat split; discriminate.
Qed.

Lemma parse_unsigned_digit neg c r :
  is_digit c = true -> exists v, parse_unsigned neg (String c r) = Some v.
Proof.
  intros D. unfold parse_unsigned. cbn [String.prefix].
  destruct (ascii_dec "I" c) as [E|_];
    [exfalso; symmetry in E; revert E; apply is_digit_not_sign, D|].
  cbn [span_digits]. rewrite D.
  destruct (span_digits r) as [d s2].
  destruct s2 as [|c2 r2]; [cbn; eauto|].
  destruct (Ascii.eqb c2 "."); [destruct (span_digits r2)|]; cbn; eauto.
Qed.

Lemma parseFloat_digit c r :
  is_digit c = true -> exists v, parseFloat (String c r) = Some v.
Proof.
  intros D. destruct (is_digit_not_sign c D) as (W & M & P & _).
  unfold parseFloat. cbn [skip_white_space]. rewrite W, M, P.
  now apply parse_unsigned_digit.
Qed.

Lemma parseFloat_minus_digit c r :
  is_digit c = true -> exists v, parseFloat (String "-" (String c r)) = Some v.
Proof.
  intros D. unfold parseFloat.
  change (skip_white_space (String "-" (String c r)))
    with (String "-" (String c r)).
  change (Ascii.eqb "-" "-") with true. cbv iota.
  now apply parse_unsigned_digit.
Qed.

(** A number that is not [NaN] prints as text that [parseFloat] reads. *)
Lemma parseFloat_NumberToString x :
  is_nan x = false -> exists v, parseFloat (NumberToString x) = Some v.
Proof.
  intros N. unfold NumberToString.
  destruct (Prim2SF x) as [s|s| |s m e] eqn:E.
  - eexists. reflexivity.
  - destruct s; eexists; reflexivity.
  - exfalso. unfold Prim2SF in E. rewrite N in E.
    destruct (is_zero x); [discriminate E|].
    destruct (is_infinity x); [discriminate E|].
    destruct (Z.frexp x), (shr_fexp _ _ _ _ _) as [mrs e'], (shr_m mrs);
      discriminate E.
  - destruct (render_decimal_head (shortest_decimal m e)) as (c & r & -> & D).
    destruct s; cbn [String.append].
    + now apply parseFloat_minus_digit.
    + now apply parseFloat_digit.
Qed.

(** ** The detail projector *)

Section DetailProjector.

Variable pow : float -> float -> float.
Variables (d : gmap string JsValue) (w : float) (st : ProgressionSettings)
          (af : float).

Lemma progressNumeric_lookup_ne name key (r : gmap string JsValue) :
  key <> name -> progressNumeric pow d w st af name r !! key = r !! key.
Proof.
  intros H. unfold progressNumeric.
  destruct (field d name); trivial.
  destruct (increment_set _ _); trivial.
  now rewrite lookup_insert_ne.
Qed.

Lemma progressReps_lookup_ne key (r : gmap string JsValue) :
  key <> "reps"%string -> progressReps pow d w st af r !! key = r !! key.
Proof.
  intros H. unfold progressReps.
  destruct (ToBoolean _); trivial.
  destruct (parseFloat _); trivial.
  destruct (increment_set _ _); trivial.
  now rewrite lookup_insert_ne.
Qed.

Lemma progressWeight_lookup_ne key (r : gmap string JsValue) :
  key <> "weight"%string -> progressWeight pow d w st af r !! key = r !! key.
Proof.
  intros H. unfold progressWeight.
  destruct (field d "weight"); trivial.
  destruct (ToBoolean _); trivial.
  destruct (find_numeral _) as [[[before m] after]|]; trivial.
  destruct (increment_set _ _); trivial.
  now rewrite lookup_insert_ne.
Qed.

(** The [reps] of the result is decided by the reps block alone. *)
Lemma applyProgression_body_reps :
  applyProgression_body pow d w st af !! "reps"%string =
  progressReps pow d w st af (progressNumeric pow d w st af "sets" d)
    !! "reps"%string.
Proof.
  unfold applyProgression_body.
  now rewrite progressNumeric_lookup_ne, progressWeight_lookup_ne.
Qed.

Lemma progressReps_set reps repsNum (r : gmap string JsValue) :
  d !! "reps"%string = Some reps ->
  ToBoolean reps = true ->
  parseFloat (ToString reps) = Some repsNum ->
  increment_set (increments st) "reps" = true ->
  progressReps pow d w st af r !! "reps"%string =
  Some (JsString (NumberToString (Math_round (progressed pow w st af repsNum "reps"))
                  +:+ strip_numeric (ToString reps))).
Proof.
  intros Hd Ht Hp Hi. unfold progressReps, field.
  rewrite Hd. cbn [from_option id]. rewrite Ht, Hp, Hi.
  apply lookup_insert_eq.
Qed.

Lemma progressReps_skip reps (r : gmap string JsValue) :
  d !! "reps"%string = Some reps ->
  ToBoolean reps = false ->
  progressReps pow d w st af r = r.
Proof.
  intros Hd Ht. unfold progressReps, field.
  rewrite Hd. cbn [from_option id]. now rewrite Ht.
Qed.

End DetailProjector.

(** C8. [applyProgression] writes the fields [sets], [reps], [weight]
    and [duration] only: every other field, [rest] and [description]
    among them, has in the result the value (or the absence) it has in the
    baseline. *)
Theorem applyProgression_frame pow baselineDetails currentWeek
    progressionSettings adaptiveFactor (key : string) :
  key <> "sets"%string -> key <> "reps"%string ->
  key <> "weight"%string -> key <> "duration"%string ->
  applyProgression pow baselineDetails currentWeek progressionSettings
    adaptiveFactor !! key
  = baselineDetails !! key.
Proof.
  intros Hs Hr Hw Hd. unfold applyProgression, applyProgression_body.
  now rewrite progressNumeric_lookup_ne, progressWeight_lookup_ne,
    progressReps_lookup_ne, progressNumeric_lookup_ne.
Qed.

Lemma applyProgression_frame_witness :
  applyProgression pow_integral hangboard_details 3 reps_by_two (Some 1%float)
    !! "rest"%string
  = hangboard_details !! "rest"%string
  /\ applyProgression pow_integral hangboard_details 3 reps_by_two (Some 1%float)
       !! "description"%string
     = hangboard_details !! "description"%string.
Proof.
  split; apply (applyProgression_frame pow_integral); discriminate.
Defined.

(** The numeral of ["10s"], its unit, and the rounded projections. *)
Lemma reps_10s_parts :
  parseFloat "10s" = Some 10%float /\ strip_numeric "10s" = "s"%string
  /\ NumberToString (Math_round (10 + 2 * (3 - 1) * 1 * 1)) = "14"%string
  /\ NumberToString (Math_round (10 + 2 * (2 - 1) * 1 * 1)) = "12"%string.
Proof. repeat split; vm_compute; reflexivity. Qed.

(** C2, as the code has it. With [reps = "10s"], [increments.reps = 2],
    the ['linear'] strategy, [userMultiplier = 1.0] and [adaptiveFactor =
    1.0], the projected [reps] is ["14s"] at week 3 (two weeks progressed)
    and ["12s"] at week 2; the unit suffix is kept. *)
Theorem applyProgression_reps_10s pow baselineDetails progressionSettings :
  baselineDetails !! "reps"%string = Some (JsString "10s") ->
  strategy progressionSettings = Some "linear"%string ->
  increments progressionSettings !! "reps"%string = Some 2%float ->
  userMultiplier progressionSettings = Some 1%float ->
  applyProgression pow baselineDetails 3 progressionSettings (Some 1%float)
    !! "reps"%string = Some (JsString "14s")
  /\ applyProgression pow baselineDetails 2 progressionSettings (Some 1%float)
       !! "reps"%string = Some (JsString "12s").
Proof.
  intros Hd Hs Hi Hm.
  destruct reps_10s_parts as (Hp & Hu & H3 & H2).
  unfold applyProgression. rewrite !applyProgression_body_reps.
  rewrite !(progressReps_set pow _ _ _ _ (JsString "10s") 10%float);
    try assumption; try reflexivity;
    try (unfold increment_set; rewrite Hi; reflexivity).
  unfold progressed, increment_of. rewrite Hs, Hi, Hm.
  cbn [ToString from_option id].
  rewrite !calculateProgressiveValue_not_percentage by discriminate.
  cbn [from_option id]. rewrite Hu, H3, H2. split; reflexivity.
Qed.

Lemma applyProgression_reps_10s_witness :
  applyProgression pow_integral hangboard_details 3 reps_by_two (Some 1%float)
    !! "reps"%string = Some (JsString "14s")
  /\ applyProgression pow_integral hangboard_details 2 reps_by_two (Some 1%float)
       !! "reps"%string = Some (JsString "12s").
Proof.
  apply (applyProgression_reps_10s pow_integral hangboard_details reps_by_two);
    reflexivity.
Defined.

(** C2 as stated fails: at week 3 the projected [reps] is ["14s"]. *)
Lemma reps_10s_week3 :
  applyProgression pow_integral (<["reps"%string := JsString "10s"]> ∅) 3
    reps_by_two (Some 1%float) !! "reps"%string
  = Some (JsString "14s")
  /\ JsString "14s" <> JsString "12s".
Proof. split; [vm_compute; reflexivity | discriminate]. Qed.

(** C10, as the code has it. A numeric [reps] other than 0 and [NaN],
    with [increments.reps] set, becomes a string: the rounded projection
    of the number read back from its decimal text, followed by the
    characters of that text other than digits, ['.'] and ['-'] (none for a
    number printed in plain decimal notation). A [reps] of 0 or [NaN]
    is left as the number it is. *)
Theorem applyProgression_numeric_reps pow baselineDetails x currentWeek
    progressionSettings adaptiveFactor :
  baselineDetails !! "reps"%string = Some (JsNumber x) ->
  increment_set (increments progressionSettings) "reps" = true ->
  (number_truthy x = true ->
   exists repsNum,
     parseFloat (NumberToString x) = Some repsNum /\
     applyProgression pow baselineDetails currentWeek progressionSettings
       adaptiveFactor !! "reps"%string
     = Some (JsString
               (NumberToString
                  (Math_round
                     (progressed pow currentWeek progressionSettings
                        (default 1%float adaptiveFactor) repsNum "reps"))
                +:+ strip_numeric (NumberToString x))))
  /\ (number_truthy x = false ->
      applyProgression pow baselineDetails currentWeek progressionSettings
        adaptiveFactor !! "reps"%string
      = Some (JsNumber x)).
Proof.
  intros Hd Hi. unfold applyProgression. rewrite applyProgression_body_reps.
  split; intros Ht.
  - destruct (parseFloat_NumberToString x) as [repsNum Hp].
    { unfold number_truthy in Ht. destruct (is_nan x); [|reflexivity].
      now rewrite orb_true_r in Ht. }
    exists repsNum. split; [exact Hp|].
    now rewrite (progressReps_set pow _ _ _ _ (JsNumber x) repsNum).
  - rewrite (progressReps_skip pow _ _ _ _ (JsNumber x)) by assumption.
    now rewrite progressNumeric_lookup_ne.
Qed.

Lemma applyProgression_numeric_reps_witness :
  applyProgression pow_integral (<["reps"%string := JsNumber 10]> ∅) 3
    reps_by_two (Some 1%float) !! "reps"%string
  = Some (JsString "14").
Proof.
  destruct (applyProgression_numeric_reps pow_integral
              (<["reps"%string := JsNumber 10]> ∅) 10 3 reps_by_two
              (Some 1%float)) as [H _]; [reflexivity | reflexivity |].
  destruct H as (repsNum & Hp & E); [reflexivity|].
  rewrite E. vm_compute in Hp. injection Hp as <-.
  vm_compute. reflexivity.
Defined.

(** C10 as stated fails for a [reps] of 0: the field stays a number. *)
Lemma reps_zero_stays_number :
  applyProgression pow_integral (<["reps"%string := JsNumber 0]> ∅) 3
    reps_by_two (Some 1%float) !! "reps"%string
  = Some (JsNumber 0).
Proof. vm_compute. reflexivity. Qed.

(** A number printed in exponent notation leaves the letters of the
    exponent behind as its suffix. *)
Example reps_1e21_suffix :
  applyProgression pow_integral (<["reps"%string := JsNumber 1e21]> ∅) 3
    reps_by_two (Some 1%float) !! "reps"%string
  = Some (JsString "1e+21e+").
Proof. vm_compute. reflexivity. Qed.

(** The weight examples of the specification: an embedded numeral is
    projected and printed with one decimal, surrounding text kept; a
    weight without a numeral is left alone. *)
Example weight_80kg :
  applyProgression pow_integral (<["weight"%string := JsString "80kg"]> ∅) 3
    {| strategy := Some "linear"%string;
       increments := <["weight"%string := 2.5%float]> ∅;
       userMultiplier := Some 1%float |} (Some 1%float) !! "weight"%string
  = Some (JsString "85.0kg").
Proof. vm_compute. reflexivity. Qed.

Example weight_bodyweight :
  applyProgression pow_integral hangboard_details 3
    {| strategy := Some "linear"%string;
       increments := <["weight"%string := 2.5%float]> ∅;
       userMultiplier := Some 1%float |} (Some 1%float) !! "weight"%string
  = Some (JsString "Bodyweight").
Proof. vm_compute. reflexivity. Qed.

(** ** Progression of a details record: what is written and what is kept *)

Section DetailBlocks.

Variable pow : float -> float -> float.
Variables (d : gmap string JsValue) (w : float) (st : ProgressionSettings)
          (af : float).

Lemma progressNumeric_unset name (r : gmap string JsValue) :
  increment_set (increments st) name = false ->
  progressNumeric pow d w st af name r = r.
Proof.
  intros H. unfold progressNumeric. rewrite H. now destruct (field d name).
Qed.

Lemma progressReps_unset (r : gmap string JsValue) :
  increment_set (increments st) "reps" = false ->
  progressReps pow d w st af r = r.
Proof.
  intros H. unfold progressReps. rewrite H.
  destruct (ToBoolean _); trivial. now destruct (parseFloat _).
Qed.

Lemma progressWeight_unset (r : gmap string JsValue) :
  increment_set (increments st) "weight" = false ->
  progressWeight pow d w st af r = r.
Proof.
  intros H. unfold progressWeight. rewrite H.
  destruct (field d "weight"); trivial.
  destruct (ToBoolean _); trivial.
  now destruct (find_numeral _) as [[[? ?] ?]|].
Qed.

Lemma field_number_is_Some name base :
  field d name = JsNumber base -> d !! name = Some (JsNumber base).
Proof. unfold field. destruct (d !! name); cbn; congruence. Qed.

Lemma field_truthy_is_Some name :
  ToBoolean (field d name) = true -> is_Some (d !! name).
Proof. unfold field. destruct (d !! name); cbn; [eauto|discriminate]. Qed.

Lemma progressNumeric_dom name (r : gmap string JsValue) :
  dom r = dom d -> dom (progressNumeric pow d w st af name r) = dom d.
Proof.
  intros H. unfold progressNumeric.
  destruct (field d name) eqn:E; trivial.
  destruct (increment_set _ _); trivial.
  apply field_number_is_Some in E.
  rewrite dom_insert_lookup_L; [exact H|].
  apply elem_of_dom. rewrite H. apply elem_of_dom. eauto.
Qed.

Lemma progressReps_dom (r : gmap string JsValue) :
  dom r = dom d -> dom (progressReps pow d w st af r) = dom d.
Proof.
  intros H. unfold progressReps.
  destruct (ToBoolean _) eqn:E; trivial.
  destruct (parseFloat _); trivial.
  destruct (increment_set _ _); trivial.
  apply field_truthy_is_Some in E.
  rewrite dom_insert_lookup_L; [exact H|].
  apply elem_of_dom. rewrite H. now apply elem_of_dom.
Qed.

Lemma progressWeight_dom (r : gmap string JsValue) :
  dom r = dom d -> dom (progressWeight pow d w st af r) = dom d.
Proof.
  intros H. unfold progressWeight.
  destruct (field d "weight") eqn:E; trivial.
  destruct (ToBoolean _) eqn:T; trivial.
  destruct (find_numeral _) as [[[? ?] ?]|]; trivial.
  destruct (increment_set _ _); trivial.
  rewrite <- E in T. apply field_truthy_is_Some in T.
  rewrite dom_insert_lookup_L; [exact H|].
  apply elem_of_dom. rewrite H. now apply elem_of_dom.
Qed.

End DetailBlocks.

(** X1. Without a set increment (absent, 0 or [NaN]) for any of the
    four fields, [applyProgression] returns the baseline record itself,
    at every week and for every strategy, multiplier and factor. *)
Theorem applyProgression_no_increments pow baselineDetails currentWeek
    progressionSettings adaptiveFactor :
  increment_set (increments progressionSettings) "sets" = false ->
  increment_set (increments progressionSettings) "reps" = false ->
  increment_set (increments progressionSettings) "weight" = false ->
  increment_set (increments progressionSettings) "duration" = false ->
  applyProgression pow baselineDetails currentWeek progressionSettings
    adaptiveFactor = baselineDetails.
Proof.
  intros Hs Hr Hw Hd. unfold applyProgression, applyProgression_body.
  now rewrite (progressNumeric_unset _ _ _ _ _ "sets"), progressReps_unset,
    progressWeight_unset, progressNumeric_unset.
Qed.

Lemma applyProgression_no_increments_witness :
  applyProgression pow_integral hangboard_details 9
    defaultProgressionSettings (Some 1.1%float) = hangboard_details.
Proof.
  apply (applyProgression_no_increments pow_integral); reflexivity.
Defined.

(** X2. [applyProgression] neither adds nor removes a field: the result
    has exactly the fields of the baseline. *)
Theorem applyProgression_dom pow baselineDetails currentWeek
    progressionSettings adaptiveFactor :
  dom (applyProgression pow baselineDetails currentWeek progressionSettings
         adaptiveFactor) = dom baselineDetails.
Proof.
  unfold applyProgression, applyProgression_body.
  apply progressNumeric_dom, progressWeight_dom, progressReps_dom,
    progressNumeric_dom. reflexivity.
Qed.

(** ** The reps text *)

Lemma span_digits_no_digit s :
  has_digit s = false -> span_digits s = (EmptyString, s).
Proof.
  destruct s as [|c r]; [reflexivity|]. cbn.
  intros H. apply orb_false_elim in H. destruct H as [-> _]. reflexivity.
Qed.

Lemma string_append_nil_r (s : string) : s +:+ EmptyString = s.
Proof.
  induction s as [|c s IH]; [reflexivity|].
  change (String c (s +:+ EmptyString) = String c s). now rewrite IH.
Qed.

Lemma has_numeric_has_digit s : has_numeric s = false -> has_digit s = false.
Proof.
  induction s as [|c r IH]; [reflexivity|]. cbn.
  destruct (is_digit c); [discriminate|]. cbn.
  destruct (Ascii.eqb c "."); [discriminate|].
  destruct (Ascii.eqb c "-"); [discriminate|]. exact IH.
Qed.

Lemma span_digits_all s u :
  all_digits s = true -> has_digit u = false ->
  span_digits (s +:+ u) = (s, u).
Proof.
  intros A U. induction s as [|c r IH].
  - now apply span_digits_no_digit.
  - cbn in A. apply andb_prop in A. destruct A as [D A].
    change (String c r +:+ u) with (String c (r +:+ u)).
    cbn [span_digits]. now rewrite D, IH.
Qed.

Lemma exponent_part_no_digit s : has_digit s = false -> exponent_part s = 0.
Proof.
  intros H. unfold exponent_part.
  destruct s as [|c r]; [reflexivity|].
  destruct (Ascii.eqb c "e" || Ascii.eqb c "E"); [|reflexivity].
  cbn in H. apply orb_false_elim in H. destruct H as [_ Hr].
  destruct r as [|c2 t]; [reflexivity|].
  assert (has_digit t = false) as Ht.
  { cbn in Hr. now apply orb_false_elim in Hr. }
  pose proof (span_digits_no_digit _ Hr) as E1.
  pose proof (span_digits_no_digit _ Ht) as E2.
  destruct c2 as [[] [] [] [] [] [] [] []];
    first [ now rewrite E1 | now rewrite E2 ].
Qed.

Lemma strip_numeric_digits s u :
  all_digits s = true -> strip_numeric (s +:+ u) = strip_numeric u.
Proof.
  intros A. induction s as [|c r IH]; [reflexivity|].
  cbn in A. apply andb_prop in A. destruct A as [D A].
  change (String c r +:+ u) with (String c (r +:+ u)).
  cbn [strip_numeric]. rewrite D. now apply IH.
Qed.

Lemma strip_numeric_none u : has_numeric u = false -> strip_numeric u = u.
Proof.
  induction u as [|c r IH]; [reflexivity|]. cbn.
  destruct (is_digit c); [discriminate|]. cbn.
  destruct (Ascii.eqb c "."); [discriminate|].
  destruct (Ascii.eqb c "-"); [discriminate|].
  cbn. intros H. now rewrite IH.
Qed.

(** Digits followed by a unit read as the number the digits write. *)
Lemma parseFloat_digits_unit c ds unit :
  all_digits (String c ds) = true -> has_numeric unit = false ->
  parseFloat (String c ds +:+ unit)
  = Some (decimal_to_float false (digits_value (String c ds)) 0).
Proof.
  intros A U. pose proof (has_numeric_has_digit _ U) as Ud.
  assert (is_digit c = true) as D.
  { cbn in A. now apply andb_prop in A. }
  destruct (is_digit_not_sign c D) as (W & M & P & I).
  unfold parseFloat.
  change (String c ds +:+ unit) with (String c (ds +:+ unit)).
  cbn [skip_white_space]. rewrite W, M, P.
  change (String c (ds +:+ unit)) with (String c ds +:+ unit).
  unfold parse_unsigned.
  assert (String.prefix "Infinity" (String c ds +:+ unit) = false) as ->.
  { change (String c ds +:+ unit) with (String c (ds +:+ unit)).
    cbn [String.prefix]. destruct (ascii_dec "I" c) as [E|_]; [|reflexivity].
    now symmetry in E. }
  rewrite (span_digits_all _ _ A Ud).
  assert ((match unit with
           | String c0 r =>
               if Ascii.eqb c0 "." then span_digits r else (EmptyString, unit)
           | EmptyString => (EmptyString, unit)
           end) = (EmptyString, unit)) as ->.
  { destruct unit as [|c0 r]; [reflexivity|]. cbn in U.
    destruct (is_digit c0); [discriminate U|]. cbn in U.
    now destruct (Ascii.eqb c0 "."). }
  rewrite string_append_nil_r, (exponent_part_no_digit _ Ud). reflexivity.
Qed.

(** X3. Unit preservation: a [reps] text made of digits and a unit that
    holds no digit, point or minus, with [increments.reps] set, becomes
    the rounded projection of the number the digits write, followed by
    the same unit. *)
Theorem applyProgression_reps_unit pow baselineDetails c ds unit currentWeek
    progressionSettings adaptiveFactor :
  baselineDetails !! "reps"%string = Some (JsString (String c ds +:+ unit)) ->
  all_digits (String c ds) = true ->
  has_numeric unit = false ->
  increment_set (increments progressionSettings) "reps" = true ->
  applyProgression pow baselineDetails currentWeek progressionSettings
    adaptiveFactor !! "reps"%string
  = Some (JsString
            (NumberToString
               (Math_round
                  (progressed pow currentWeek progressionSettings
                     (default 1%float adaptiveFactor)
                     (decimal_to_float false (digits_value (String c ds)) 0)
                     "reps"))
             +:+ unit)).
Proof.
  intros Hd A U Hi. unfold applyProgression.
  rewrite applyProgression_body_reps.
  rewrite (progressReps_set pow _ _ _ _ (JsString (String c ds +:+ unit))
             (decimal_to_float false (digits_value (String c ds)) 0));
    trivial.
  - cbn [ToString]. now rewrite strip_numeric_digits, strip_numeric_none.
  - now apply parseFloat_digits_unit.
Qed.

Lemma applyProgression_reps_unit_witness :
  applyProgression pow_integral
    (<["reps"%string := JsString "45 sec"]> ∅) 4 reps_by_two (Some 1%float)
    !! "reps"%string
  = Some (JsString "51 sec").
Proof.
  rewrite (applyProgression_reps_unit pow_integral _ "4" "5" " sec");
    reflexivity.
Defined.

Lemma includes_tail c r k :
  includes (String c r) k = false ->
  String.prefix k (String c r) = false /\ includes r k = false.
Proof. cbn [includes]. intros H. now apply orb_false_elim in H. Qed.

Lemma includes_nil_prefix s k :
  includes s k = false -> String.prefix k s = false.
Proof.
  destruct s; cbn [includes]; intros H; now apply orb_false_elim in H.
Qed.

Lemma skip_white_space_keeps s k :
  has_digit s = false -> includes s k = false ->
  has_digit (skip_white_space s) = false
  /\ includes (skip_white_space s) k = false.
Proof.
  induction s as [|c r IH]; intros D I; [now split|].
  cbn [skip_white_space]. destruct (is_white_space c); [|now split].
  apply IH.
  - cbn in D. now apply orb_false_elim in D.
  - now apply includes_tail in I.
Qed.

Lemma parse_unsigned_no_digit neg s :
  has_digit s = false -> includes s "Infinity" = false ->
  parse_unsigned neg s = None.
Proof.
  intros D I. unfold parse_unsigned.
  rewrite (includes_nil_prefix _ _ I), (span_digits_no_digit _ D).
  destruct s as [|c r]; [reflexivity|].
  destruct (Ascii.eqb c "."); [|reflexivity].
  cbn in D. apply orb_false_elim in D. destruct D as [_ D].
  now rewrite (span_digits_no_digit _ D).
Qed.

(** A text without a digit that does not mention [Infinity] is not a
    number for [parseFloat]. *)
Lemma parseFloat_no_digit s :
  has_digit s = false -> includes s "Infinity" = false ->
  parseFloat s = None.
Proof.
  intros D I. unfold parseFloat.
  destruct (skip_white_space_keeps s "Infinity" D I) as [D' I'].
  destruct (skip_white_space s) as [|c r]; [reflexivity|].
  assert (has_digit r = false) as Dr.
  { cbn in D'. now apply orb_false_elim in D'. }
  assert (includes r "Infinity" = false) as Ir by now apply includes_tail in I'.
  destruct (Ascii.eqb c "-"); [now apply parse_unsigned_no_digit|].
  destruct (Ascii.eqb c "+"); now apply parse_unsigned_no_digit.
Qed.

(** X4. A descriptive [reps] text, one that holds no digit and does not
    mention [Infinity], is left as it is. *)
Theorem applyProgression_reps_text pow baselineDetails reps currentWeek
    progressionSettings adaptiveFactor :
  baselineDetails !! "reps"%string = Some (JsString reps) ->
  has_digit reps = false ->
  includes reps "Infinity" = false ->
  applyProgression pow baselineDetails currentWeek progressionSettings
    adaptiveFactor !! "reps"%string = Some (JsString reps).
Proof.
  intros Hd D I. unfold applyProgression.
  rewrite applyProgression_body_reps.
  unfold progressReps, field. rewrite Hd. cbn [from_option id ToString].
  rewrite (parseFloat_no_digit _ D I).
  destruct (ToBoolean _); now rewrite progressNumeric_lookup_ne.
Qed.

Lemma applyProgression_reps_text_witness :
  applyProgression pow_integral
    (<["reps"%string := JsString "to failure"]> ∅) 4 reps_by_two (Some 1%float)
    !! "reps"%string
  = Some (JsString "to failure").
Proof.
  apply (applyProgression_reps_text pow_integral); reflexivity.
Defined.

(** ** The numeral of a weight *)



Lemma span_digits_head c r :
  is_digit c = true ->
  exists a b, span_digits (String c r) = (String c a, b).
Proof.
  intros D. cbn. rewrite D. destruct (span_digits r). eauto.
Qed.



Lemma match_numeral_here_no_digit s :
  has_digit s = false -> match_numeral_here s = None.
Proof.
  intros H. unfold match_numeral_here.
  destruct s as [|c r]; [reflexivity|].
  cbn in H. apply orb_false_elim in H. destruct H as [Hc Hr].
  destruct (Ascii.eqb c "+" || Ascii.eqb c "-").
  - now rewrite (span_digits_no_digit r Hr).
  - cbn [span_digits]. now rewrite Hc.
Qed.

Lemma match_numeral_here_digit c r :
  is_digit c = true -> match_numeral_here (String c r) <> None.
Proof.
  intros D. unfold match_numeral_here.
  destruct (is_digit_not_sign c D) as (_ & M & P & _). rewrite P, M.
  cbn [orb]. destruct (span_digits_head c r D) as (a & b & ->).
  destruct b as [|c2 r2]; [discriminate|].
  destruct (span_digits r2) as [[|f fp] s3] eqn:F;
    destruct c2 as [[] [] [] [] [] [] [] []]; try rewrite F; discriminate.
Qed.


(** A text has a numeral to replace exactly when it holds a digit. *)
Lemma find_numeral_None s : find_numeral s = None <-> has_digit s = false.
Proof.
  split.
  - induction s as [|c r IH]; [reflexivity|]. cbn [find_numeral has_digit].
    destruct (match_numeral_here (String c r)) as [[m rest]|] eqn:E;
      [discriminate|].
    destruct (find_numeral r) as [[[b m] a]|]; [discriminate|]. intros _.
    rewrite IH by reflexivity. rewrite orb_false_r.
    destruct (is_digit c) eqn:D; [|reflexivity].
    now apply match_numeral_here_digit with (r := r) in D.
  - induction s as [|c r IH]; [reflexivity|]. intros H.
    cbn [find_numeral]. rewrite (match_numeral_here_no_digit _ H).
    cbn in H. apply orb_false_elim in H. destruct H as [_ Hr].
    now rewrite IH.
Qed.

Section WeightBlock.

Variable pow : float -> float -> float.
Variables (d : gmap string JsValue) (w : float) (st : ProgressionSettings)
          (af : float).

Lemma applyProgression_body_weight :
  applyProgression_body pow d w st af !! "weight"%string =
  progressWeight pow d w st af
    (progressReps pow d w st af (progressNumeric pow d w st af "sets" d))
    !! "weight"%string.
Proof.
  unfold applyProgression_body. now rewrite progressNumeric_lookup_ne.
Qed.

Lemma progressWeight_keep (r : gmap string JsValue) :
  r !! "weight"%string = d !! "weight"%string ->
  (forall s, d !! "weight"%string = Some (JsString s) ->
             has_digit s = true ->
             increment_set (increments st) "weight" = false) ->
  progressWeight pow d w st af r !! "weight"%string = d !! "weight"%string.
Proof.
  intros Hr H. unfold progressWeight, field.
  destruct (d !! "weight"%string) as [[| | | |s]|] eqn:E; cbn; trivial.
  destruct (negb _); trivial.
  destruct (find_numeral s) as [[[b m] a]|] eqn:F; trivial.
  rewrite (H s); trivial.
  destruct (has_digit s) eqn:D; [reflexivity|].
  apply find_numeral_None in D. congruence.
Qed.

End WeightBlock.

(** X5. A [weight] that holds no digit (["Bodyweight"]) is left as it
    is, at every week and for every setting. *)
Theorem applyProgression_weight_no_digit pow baselineDetails weight
    currentWeek progressionSettings adaptiveFactor :
  baselineDetails !! "weight"%string = Some (JsString weight) ->
  has_digit weight = false ->
  applyProgression pow baselineDetails currentWeek progressionSettings
    adaptiveFactor !! "weight"%string = Some (JsString weight).
Proof.
  intros Hd Hn. unfold applyProgression.
  rewrite applyProgression_body_weight, progressWeight_keep; trivial.
  - now rewrite progressReps_lookup_ne, progressNumeric_lookup_ne.
  - intros s Hs D. congruence.
Qed.

Lemma applyProgression_weight_no_digit_witness :
  applyProgression pow_integral hangboard_details 6
    {| strategy := Some "percentage"%string;
       increments := <["weight"%string := 2.5%float]> ∅;
       userMultiplier := Some 2%float |} (Some 1.1%float) !! "weight"%string
  = Some (JsString "Bodyweight").
Proof.
  apply (applyProgression_weight_no_digit pow_integral hangboard_details);
    reflexivity.
Defined.



(** ** The types of the projected fields *)

Lemma progressNumeric_lookup pow d w st af name (r : gmap string JsValue) :
  r !! name = d !! name ->
  match d !! name with
  | Some (JsNumber _) =>
      exists x, progressNumeric pow d w st af name r !! name = Some (JsNumber x)
  | o => progressNumeric pow d w st af name r !! name = o
  end.
Proof.
  intros Hr. unfold progressNumeric, field.
  destruct (d !! name) as [[| | |b|]|] eqn:E; cbn; trivial.
  destruct (increment_set _ _); [|eauto].
  eexists. apply lookup_insert_eq.
Qed.

Lemma progressWeight_lookup pow d w st af (r : gmap string JsValue) :
  r !! "weight"%string = d !! "weight"%string ->
  match d !! "weight"%string with
  | Some (JsString _) =>
      exists s, progressWeight pow d w st af r !! "weight"%string
                = Some (JsString s)
  | o => progressWeight pow d w st af r !! "weight"%string = o
  end.
Proof.
  intros Hr. unfold progressWeight, field.
  destruct (d !! "weight"%string) as [[| | | |s]|] eqn:E; cbn; trivial.
  destruct (negb _); [|eauto].
  destruct (find_numeral s) as [[[b m] a]|]; [|eauto].
  destruct (increment_set _ _); [|eauto].
  eexists. apply lookup_insert_eq.
Qed.

(** X7. [sets] and [duration] stay numbers and [weight] stays a string:
    a field of another type, or an absent one, is returned as it is. *)
Theorem applyProgression_types pow baselineDetails currentWeek
    progressionSettings adaptiveFactor :
  let result := applyProgression pow baselineDetails currentWeek
                  progressionSettings adaptiveFactor in
  match baselineDetails !! "sets"%string with
  | Some (JsNumber _) => exists x, result !! "sets"%string = Some (JsNumber x)
  | o => result !! "sets"%string = o
  end
  /\ match baselineDetails !! "duration"%string with
     | Some (JsNumber _) =>
         exists x, result !! "duration"%string = Some (JsNumber x)
     | o => result !! "duration"%string = o
     end
  /\ match baselineDetails !! "weight"%string with
     | Some (JsString _) =>
         exists s, result !! "weight"%string = Some (JsString s)
     | o => result !! "weight"%string = o
     end.
Proof.
  intros result. subst result. unfold applyProgression, applyProgression_body.
  set (af := default 1%float adaptiveFactor).
  split; [|split].
  - rewrite progressNumeric_lookup_ne, progressWeight_lookup_ne,
      progressReps_lookup_ne by discriminate.
    now apply progressNumeric_lookup.
  - apply progressNumeric_lookup.
    now rewrite progressWeight_lookup_ne, progressReps_lookup_ne,
      progressNumeric_lookup_ne by discriminate.
  - rewrite progressNumeric_lookup_ne by discriminate.
    apply progressWeight_lookup.
    now rewrite progressReps_lookup_ne, progressNumeric_lookup_ne
      by discriminate.
Qed.

(** ** More on the value projector *)

Section ValueProjectorMore.

#[local] Open Scope float_scope.

(** X8. Linear additivity: with the multiplier and the factor at 1.0, or
    left out, and the ['linear'] strategy, or none, the result is exactly
    [baseValue + increment * (weekNumber - 1)]. *)
Theorem calculateProgressiveValue_additive pow baseValue weekNumber increment :
  calculateProgressiveValue pow baseValue weekNumber increment
    (Some 1) (Some "linear"%string) (Some 1)
  = baseValue + increment * (weekNumber - 1)
  /\ calculateProgressiveValue pow baseValue weekNumber increment
       None None None
     = baseValue + increment * (weekNumber - 1).
Proof.
  split; unfold calculateProgressiveValue; cbn [from_option id];
    change (String.eqb "linear" "percentage") with false; cbv iota;
    now rewrite !mul_one_r.
Qed.

(** At week 1 a baseline of zero stays a zero. *)
Lemma week1_zero pow v inc mult strat fac :
  (forall b e, is_zero e = true -> pow b e = 1) ->
  is_finite inc = true -> is_finite mult = true -> is_finite fac = true ->
  SFzero (Prim2SF v) = true ->
  SFzero (Prim2SF (calculateProgressiveValue pow v 1 inc (Some mult) strat
                     (Some fac))) = true.
Proof.
  intros Hpow Hi Hm Hf Hv.
  pose proof (week1_progress_zero mult fac Hm Hf) as Hz.
  unfold calculateProgressiveValue. cbn [from_option id].
  destruct (String.eqb _ _).
  - rewrite Hpow by now apply SFzero_is_zero. now rewrite mul_one_r.
  - match goal with
    | |- context [v + ?a] =>
        assert (SFzero (Prim2SF a) = true) as Ha
          by (apply mul_zero_l; [apply mul_zero_l; [apply mul_zero_r|]|];
              auto using Prim2SF_finite);
        revert Ha; generalize a; intros z Ha
    end.
    rewrite add_spec. unfold SF64add.
    destruct (Prim2SF v) as [s1| | |], (Prim2SF z) as [s2| | |];
      try discriminate. now destruct s1, s2.
Qed.

Lemma toFixed_zero x f : SFzero (Prim2SF x) = true -> toFixed x f = toFixed 0 f.
Proof.
  intros H. unfold toFixed.
  change (Prim2SF 0) with (S754_zero false).
  now destruct (Prim2SF x).
Qed.

End ValueProjectorMore.

(** X9. At week 1 a [weight] with a numeral is still rewritten: the
    numeral is printed again with one decimal (["80kg"] becomes
    ["80.0kg"]), the text around it kept. *)
Theorem applyProgression_weight_week1 pow baselineDetails weight
    before numeral after baseWeight progressionSettings adaptiveFactor :
  (forall b e, is_zero e = true -> pow b e = 1%float) ->
  baselineDetails !! "weight"%string = Some (JsString weight) ->
  find_numeral weight = Some (before, numeral, after) ->
  parseFloat numeral = Some baseWeight ->
  is_finite baseWeight = true ->
  increment_set (increments progressionSettings) "weight" = true ->
  is_finite (increment_of (increments progressionSettings) "weight") = true ->
  is_finite (default 1%float (userMultiplier progressionSettings)) = true ->
  is_finite adaptiveFactor = true ->
  applyProgression pow baselineDetails 1 progressionSettings
    (Some adaptiveFactor) !! "weight"%string
  = Some (JsString (before +:+ toFixed baseWeight 1 +:+ after)).
Proof.
  intros Hpow Hd F P Hv Hi Hif Hm Hf.
  unfold applyProgression, applyProgression_body.
  rewrite progressNumeric_lookup_ne by discriminate.
  unfold progressWeight, field. rewrite Hd. cbn [from_option id].
  assert (ToBoolean (JsString weight) = true) as ->.
  { destruct weight; [discriminate F|reflexivity]. }
  rewrite F, Hi, P. cbn [from_option id]. rewrite lookup_insert_eq.
  unfold progressed.
  set (mult := default 1%float (userMultiplier progressionSettings)) in *.
  assert (calculateProgressiveValue pow baseWeight 1
            (increment_of (increments progressionSettings) "weight")
            (userMultiplier progressionSettings)
            (strategy progressionSettings) (Some adaptiveFactor)
          = calculateProgressiveValue pow baseWeight 1
              (increment_of (increments progressionSettings) "weight")
              (Some mult) (strategy progressionSettings) (Some adaptiveFactor))
    as -> by (subst mult; now destruct (userMultiplier progressionSettings)).
  match goal with
  | |- context [toFixed ?x 1] =>
      assert (toFixed x 1 = toFixed baseWeight 1) as ->; [|reflexivity]
  end.
  destruct (is_zero baseWeight) eqn:Z.
  - rewrite toFixed_zero; [symmetry; apply toFixed_zero|].
    + now apply is_zero_SFzero.
    + apply week1_zero; trivial. now apply is_zero_SFzero.
  - now rewrite week1_identity_exact.
Qed.

Lemma applyProgression_weight_week1_witness :
  applyProgression pow_integral (<["weight"%string := JsString "80kg"]> ∅) 1
    {| strategy := Some "linear"%string;
       increments := <["weight"%string := 2.5%float]> ∅;
       userMultiplier := Some 1%float |} (Some 1%float) !! "weight"%string
  = Some (JsString "80.0kg").
Proof.
  rewrite (applyProgression_weight_week1 pow_integral _ "80kg"
             EmptyString "80" "kg" 80%float);
    solve [ exact pow_integral_zero_exponent | reflexivity ].
Defined.

(** ** More on the adherence analyzer *)

Section AdherenceMore.

#[local] Open Scope float_scope.

(** X10. Whatever the history and the week (a week below 2, where the
    expected count is zero or negative, and [NaN] included), the adaptive
    factor is one of 0.9, 0.95, 1.0 and 1.1, so it lies between 0.9 and
    1.1. *)
Theorem calculateAdaptiveFactor_range history currentWeek :
  let factor := calculateAdaptiveFactor history currentWeek in
  (factor = 0.9 \/ factor = 0.95 \/ factor = 1.0 \/ factor = 1.1)
  /\ (0.9 <=? factor) = true /\ (factor <=? 1.1) = true.
Proof.
  intros factor. subst factor. unfold calculateAdaptiveFactor.
  destruct (Nat.ltb _ _).
  - split; [auto|split; reflexivity].
  - destruct (adaptiveTier_values
                (completionRate (recentWorkouts history currentWeek) currentWeek))
      as [->|[->|[->| ->]]]; (split; [auto|split; reflexivity]).
Qed.

Lemma filter_length_Permutation {A} (p : A -> bool) (l l' : list A) :
  Permutation l l' -> length (List.filter p l) = length (List.filter p l').
Proof.
  induction 1 as [|x l l' _ IH|x y l|l l' l'' _ IH1 _ IH2]; cbn [List.filter].
  - reflexivity.
  - destruct (p x); cbn [length]; now rewrite IH.
  - destruct (p x), (p y); reflexivity.
  - now rewrite IH1.
Qed.

(** X11. The adaptive factor does not depend on the order of the
    history: two histories with the same entries give the same factor. *)
Theorem calculateAdaptiveFactor_Permutation h1 h2 currentWeek :
  Permutation h1 h2 ->
  calculateAdaptiveFactor h1 currentWeek = calculateAdaptiveFactor h2 currentWeek.
Proof.
  intros H. apply calculateAdaptiveFactor_count. unfold recentWorkouts.
  now apply filter_length_Permutation.
Qed.

Lemma calculateAdaptiveFactor_Permutation_witness :
  calculateAdaptiveFactor mixed_history 4
  = calculateAdaptiveFactor (rev mixed_history) 4.
Proof.
  apply (calculateAdaptiveFactor_Permutation mixed_history (rev mixed_history)).
  apply Permutation_rev.
Defined.

Lemma ltb_irrefl x : (x <? x) = false.
Proof.
  rewrite FloatAxioms.ltb_spec. unfold SFltb.
  pose proof (SFcompare_swap (Prim2SF x) (Prim2SF x)) as H.
  destruct (SFcompare (Prim2SF x) (Prim2SF x)) as [[]|]; trivial.
  discriminate H.
Qed.

(** X12. An entry logged in the current week, or without a week number,
    does not change the current week's factor, wherever it stands in the
    history. *)
Theorem calculateAdaptiveFactor_current_week h1 log h2 currentWeek :
  weekNumber log = Some currentWeek \/ weekNumber log = None ->
  calculateAdaptiveFactor (h1 ++ log :: h2) currentWeek
  = calculateAdaptiveFactor (h1 ++ h2) currentWeek.
Proof.
  intros H. apply calculateAdaptiveFactor_count. unfold recentWorkouts.
  rewrite !List.filter_app. cbn [List.filter].
  assert (inWindow currentWeek log = false) as ->; [|reflexivity].
  unfold inWindow. destruct H as [-> | ->]; [|reflexivity].
  now rewrite ltb_irrefl, andb_false_r.
Qed.

Lemma calculateAdaptiveFactor_current_week_witness :
  calculateAdaptiveFactor (mixed_history ++ [logged 4 (Some 1900800000%Z)]) 4
  = calculateAdaptiveFactor (mixed_history ++ []) 4.
Proof.
  apply (calculateAdaptiveFactor_current_week mixed_history
           (logged 4 (Some 1900800000%Z)) []).
  left. reflexivity.
Defined.

End AdherenceMore.

(** ** More on the schedule clock *)

Lemma currentPlanWeek_days today planStartDate durationWeeks :
  planStartDate <= today -> 0 < durationWeeks ->
  currentPlanWeek today planStartDate durationWeeks
  = Some (((today - planStartDate) / 86400000 / 7) mod durationWeeks + 1).
Proof.
  intros Ht Hd. unfold currentPlanWeek, planWeekOfDay.
  destruct (Z.eqb_spec durationWeeks 0) as [E|_]; [lia|].
  rewrite Z.abs_eq by lia.
  change (1000 * 60 * 60 * 24) with 86400000.
  rewrite Z.rem_mod_nonneg; trivial.
  apply Z.div_pos; [|lia]. apply Z.div_pos; lia.
Qed.

(** X13. For a plan of at least one week the week number exists and lies
    between 1 and [durationWeeks], whichever of the two instants comes
    first; a start in the future counts as the same distance in the past.
    With [durationWeeks = 0] there is no week number. *)
Theorem currentPlanWeek_bounds today planStartDate durationWeeks :
  (1 <= durationWeeks ->
   exists week,
     currentPlanWeek today planStartDate durationWeeks = Some week
     /\ 1 <= week <= durationWeeks)
  /\ currentPlanWeek today planStartDate durationWeeks
     = currentPlanWeek planStartDate today durationWeeks
  /\ currentPlanWeek today planStartDate 0 = None.
Proof.
  split; [|split; [|reflexivity]].
  - intros Hd. unfold currentPlanWeek, planWeekOfDay.
    destruct (Z.eqb_spec durationWeeks 0) as [E|_]; [lia|].
    eexists. split; [reflexivity|].
    assert (0 <= Z.abs (today - planStartDate) / (1000 * 60 * 60 * 24) / 7) as Hq.
    { apply Z.div_pos; [|lia]. apply Z.div_pos; lia. }
    rewrite Z.rem_mod_nonneg by lia.
    pose proof (Z.mod_pos_bound
                  (Z.abs (today - planStartDate) / (1000 * 60 * 60 * 24) / 7)
                  durationWeeks). lia.
  - unfold currentPlanWeek.
    now replace (planStartDate - today) with (- (today - planStartDate)) by lia;
      rewrite Z.abs_opp.
Qed.

Lemma currentPlanWeek_bounds_witness :
  exists week,
    currentPlanWeek 1700000000000 1690000000000 12 = Some week
    /\ 1 <= week <= 12.
Proof.
  apply (currentPlanWeek_bounds 1700000000000 1690000000000 12). lia.
Defined.

(** X14. The plan is perpetual: a whole number of plan durations later
    the week number is the same. *)
Theorem currentPlanWeek_periodic today planStartDate durationWeeks k :
  planStartDate <= today -> 0 < durationWeeks -> 0 <= k ->
  currentPlanWeek (today + k * (durationWeeks * 7 * 86400000))
    planStartDate durationWeeks
  = currentPlanWeek today planStartDate durationWeeks.
Proof.
  intros Ht Hd Hk. rewrite !currentPlanWeek_days by nia.
  do 2 f_equal.
  replace (today + k * (durationWeeks * 7 * 86400000) - planStartDate)
    with (today - planStartDate + (k * durationWeeks * 7) * 86400000) by lia.
  rewrite Z.div_add by lia.
  replace (k * durationWeeks * 7) with ((k * durationWeeks) * 7) by lia.
  rewrite Z.div_add by lia.
  replace (k * durationWeeks) with (k * durationWeeks)%Z by reflexivity.
  now rewrite Z.mod_add by lia.
Qed.

Lemma currentPlanWeek_periodic_witness :
  currentPlanWeek (1700000000000 + 3 * (12 * 7 * 86400000)) 1690000000000 12
  = currentPlanWeek 1700000000000 1690000000000 12.
Proof.
  apply (currentPlanWeek_periodic 1700000000000 1690000000000 12 3); lia.
Defined.

(** X15. Seven days later the plan is in the next week, and after the
    last week in week 1 again. *)
Theorem currentPlanWeek_next today planStartDate durationWeeks week :
  planStartDate <= today -> 0 < durationWeeks ->
  currentPlanWeek today planStartDate durationWeeks = Some week ->
  currentPlanWeek (today + 7 * 86400000) planStartDate durationWeeks
  = Some (if week <? durationWeeks then week + 1 else 1).
Proof.
  intros Ht Hd. rewrite !currentPlanWeek_days by lia.
  intros [= <-]. f_equal.
  replace (today + 7 * 86400000 - planStartDate)
    with (today - planStartDate + 7 * 86400000) by lia.
  rewrite Z.div_add by lia.
  replace ((today - planStartDate) / 86400000 + 7)
    with ((today - planStartDate) / 86400000 + 1 * 7) by lia.
  rewrite Z.div_add by lia.
  set (q := (today - planStartDate) / 86400000 / 7).
  pose proof (Z.mod_pos_bound q durationWeeks Hd) as B.
  destruct (Z.ltb_spec (q mod durationWeeks + 1) durationWeeks) as [L|L].
  - rewrite <- Z.add_mod_idemp_l by lia. now rewrite Z.mod_small by lia.
  - assert (q mod durationWeeks = durationWeeks - 1) as E by lia.
    rewrite <- Z.add_mod_idemp_l by lia. rewrite E.
    replace (durationWeeks - 1 + 1) with durationWeeks by lia.
    now rewrite Z.mod_same by lia.
Qed.

Lemma currentPlanWeek_next_witness :
  currentPlanWeek (7171200000 + 7 * 86400000) 0 12 = Some 1.
Proof.
  apply (currentPlanWeek_next 7171200000 0 12 12); [lia | lia | reflexivity].
Defined.

(** ** The history listener *)

Lemma sort_insert_Permutation {A} (first : A -> A -> bool) x (l : list A) :
  Permutation (sort_insert first x l) (x :: l).
Proof.
  induction l as [|y r IH]; [reflexivity|].
  cbn [sort_insert]. destruct (first y x); [|reflexivity].
  rewrite IH. apply perm_swap.
Qed.

Lemma array_sort_Permutation {A} (first : A -> A -> bool) (l : list A) :
  Permutation (array_sort first l) l.
Proof.
  induction l as [|x r IH]; [reflexivity|].
  cbn [array_sort fold_right]. fold (array_sort first r).
  rewrite sort_insert_Permutation. now constructor.
Qed.

Lemma laterFirst_notEarlier a b :
  (laterFirst a b = true -> notEarlier a b)
  /\ (laterFirst a b = false -> notEarlier b a).
Proof.
  unfold laterFirst, notEarlier. split; intros H.
  - apply Z.ltb_lt in H. lia.
  - apply Z.ltb_ge in H. lia.
Qed.

Lemma sort_insert_sorted x l :
  StronglySorted notEarlier l ->
  StronglySorted notEarlier (sort_insert laterFirst x l).
Proof.
  induction 1 as [|y r Hr IH Hy]; cbn [sort_insert].
  - repeat constructor.
  - destruct (laterFirst y x) eqn:E.
    + constructor; [exact IH|].
      rewrite List.Forall_forall. intros z Hz.
      apply (Permutation_in _ (sort_insert_Permutation laterFirst x r)) in Hz.
      destruct Hz as [<-|Hz].
      * exact (proj1 (laterFirst_notEarlier y x) E).
      * rewrite List.Forall_forall in Hy. now apply Hy.
    + apply (proj2 (laterFirst_notEarlier y x)) in E.
      constructor; [now constructor|].
      constructor; [exact E|].
      rewrite List.Forall_forall in *. intros z Hz. specialize (Hy z Hz).
      unfold notEarlier in *. lia.
Qed.

(** X16. The history handed to the views holds exactly the documents of
    the active profile that carry a [Timestamp], each as often as the
    snapshot has it, and is ordered latest first. *)
Theorem historyListener_sorted activeProfileId docs :
  StronglySorted notEarlier (historyListener activeProfileId docs)
  /\ Permutation (historyListener activeProfileId docs)
       (List.filter
          (fun data => ofProfile activeProfileId data && hasCompletedAt data)
          docs)
  /\ forall log,
       In log (historyListener activeProfileId docs) <->
       In log docs /\ profileId log = Some activeProfileId
       /\ exists stamp, completedAt log = Some stamp.
Proof.
  unfold historyListener. split; [|split].
  - induction (List.filter _ docs) as [|x r IH]; [constructor|].
    cbn [array_sort fold_right]. now apply sort_insert_sorted.
  - apply array_sort_Permutation.
  - intros log. split.
    + intros H. apply (Permutation_in _ (array_sort_Permutation _ _)) in H.
      apply List.filter_In in H. destruct H as [Hin H].
      apply andb_prop in H. destruct H as [Hp Hc]. split; [exact Hin|].
      unfold ofProfile, hasCompletedAt in *.
      destruct (profileId log) as [p|]; [|discriminate].
      apply String.eqb_eq in Hp. subst p.
      destruct (completedAt log); [eauto|discriminate].
    + intros (Hin & Hp & stamp & Hc).
      apply (Permutation_in _ (Permutation_sym (array_sort_Permutation _ _))).
      apply List.filter_In. split; [exact Hin|].
      unfold ofProfile, hasCompletedAt. rewrite Hp, Hc, String.eqb_refl.
      reflexivity.
Qed.

(** ** The week of the dashboard *)

Section DashboardFacts.

Variable pow : float -> float -> float.

(** X17. The current week keeps the shape of the base week: the same
    days in the same order, each with its label, its focus and as many
    exercises, each exercise with its name, type and baseline; a rest day
    stays a rest day. Only [details] is computed. *)
Theorem currentWeekDays_shape days currentPlanWeek progressionSettings
    adaptiveFactor :
  let shape (d : DayTemplate) :=
    (day_label d, day_focus d,
     List.map (fun ex => (ex_name ex, ex_type ex, ex_baselineDetails ex))
       (day_exercises d)) in
  List.map shape
    (currentWeekDays pow days currentPlanWeek progressionSettings adaptiveFactor)
  = List.map shape days.
Proof.
  intros shape. unfold currentWeekDays. rewrite List.map_map.
  apply List.map_ext. intros d. unfold shape, materializeDay. cbn.
  now rewrite List.map_map.
Qed.

(** X18. A plan without progression settings shows its baseline at
    every week and for every adaptive factor: the details of each
    exercise are its [baselineDetails], or its older [details] when it has
    no baseline. *)
Theorem materializeExercise_no_settings currentPlanWeek adaptiveFactor ex :
  ex_details (materializeExercise pow currentPlanWeek None adaptiveFactor ex)
  = or_else (ex_baselineDetails ex) (ex_details ex).
Proof.
  unfold materializeExercise. cbn [ex_details from_option id].
  assert (forall base,
             applyProgression pow base currentPlanWeek
               defaultProgressionSettings (Some adaptiveFactor) = base) as K.
  { intros base. unfold applyProgression, applyProgression_body.
    now rewrite (progressNumeric_unset _ _ _ _ _ "sets"), progressReps_unset,
      progressWeight_unset, progressNumeric_unset. }
  destruct (ex_baselineDetails ex) as [b|], (ex_details ex) as [d|]; cbn;
    try reflexivity; now rewrite K.
Qed.

(** X19. Building the week again from a built week changes nothing, as
    long as every exercise has a baseline or no details at all: the
    progression starts from [baselineDetails] each time and does not
    compound. *)
Theorem currentWeekDays_idempotent days currentPlanWeek progressionSettings
    adaptiveFactor :
  Forall (fun d =>
            Forall (fun ex => ex_baselineDetails ex <> None
                              \/ ex_details ex = None) (day_exercises d)) days ->
  currentWeekDays pow
    (currentWeekDays pow days currentPlanWeek progressionSettings adaptiveFactor)
    currentPlanWeek progressionSettings adaptiveFactor
  = currentWeekDays pow days currentPlanWeek progressionSettings adaptiveFactor.
Proof.
  intros H. unfold currentWeekDays. rewrite List.map_map.
  apply List.map_ext_in. intros d Hd.
  rewrite List.Forall_forall in H. specialize (H d Hd).
  unfold materializeDay. cbn [day_label day_focus day_exercises]. f_equal.
  rewrite List.map_map. apply List.map_ext_in. intros ex Hex.
  rewrite List.Forall_forall in H. specialize (H ex Hex).
  unfold materializeExercise.
  cbn [ex_name ex_type ex_baselineDetails ex_details]. f_equal.
  destruct (ex_baselineDetails ex) as [b|], (ex_details ex) as [x|]; cbn;
    try reflexivity.
  destruct H as [H|H]; [now contradiction H|discriminate H].
Qed.

(** X20. Today's workout is the built form of today's template: looking
    a day up by its label in the current week gives the materialized
    entry of the base week with that label (the first one), and nothing
    when the base week has no such day. *)
Theorem todayData_currentWeek days currentPlanWeek progressionSettings
    adaptiveFactor todayDayName :
  todayData
    (currentWeekDays pow days currentPlanWeek progressionSettings adaptiveFactor)
    todayDayName
  = option_map (materializeDay pow currentPlanWeek progressionSettings
                  adaptiveFactor)
      (todayData days todayDayName).
Proof.
  unfold todayData, currentWeekDays.
  induction days as [|d r IH]; [reflexivity|].
  cbn [List.map List.find]. unfold materializeDay at 1. cbn [day_label].
  destruct (String.eqb (day_label d) todayDayName); [reflexivity|exact IH].
Qed.

End DashboardFacts.

Lemma currentWeekDays_idempotent_witness :
  currentWeekDays pow_integral
    (currentWeekDays pow_integral [climbing_monday; climbing_tuesday] 3
       (Some reps_by_two) 1)
    3 (Some reps_by_two) 1
  = currentWeekDays pow_integral [climbing_monday; climbing_tuesday] 3
      (Some reps_by_two) 1.
Proof.
  apply (currentWeekDays_idempotent pow_integral).
  repeat constructor; left; discriminate.
Defined.

(** ** The timer text *)















(** ** Editing the base week *)

Lemma split_dot_no_dot k :
  includes k "." = false -> split_dot k = (k, None).
Proof.
  induction k as [|c k IH]; trivial.
  cbn [includes split_dot String.prefix].
  destruct (ascii_dec "." c) as [<-|n].
  - destruct k; discriminate.
  - cbn [orb]. intros H.
    destruct (Ascii.eqb_spec c "."); [congruence|].
    now rewrite (IH H).
Qed.

Lemma second_segment_details k :
  includes k "." = false -> second_segment ("details." +:+ k) = Some k.
Proof.
  intros H. unfold second_segment.
  change (split_dot ("details." +:+ k)) with ("details"%string, Some k).
  cbn match. now rewrite (split_dot_no_dot _ H).
Qed.

Lemma prefix_details k : String.prefix "details." ("details." +:+ k) = true.
Proof. destruct k; reflexivity. Qed.

Section EditFacts.

Variables (days : list DayTemplate) (selectedDay : nat) (d : DayTemplate).
Hypothesis Hday : days !! selectedDay = Some d.

Lemma withExercises_Some f exercises :
  f (day_exercises d) = Some exercises ->
  withExercises days selectedDay f =
  Some (<[selectedDay := {| day_label := day_label d; day_focus := day_focus d;
                            day_exercises := exercises |}]> days).
Proof. intros H. unfold withExercises. now rewrite Hday, H. Qed.

(** X22 (App.jsx:3351 [updateExercise]): a value typed into a details
    field of an existing exercise is stored where the engine reads its
    base: afterwards [baselineDetails || details] of that exercise is the
    base it had before (or an empty record) with the field set to the
    value; its name and type, the other exercises of the day, the day's
    label and focus and the other days are as before. *)
Theorem updateExercise_details exerciseIndex ex k value :
  day_exercises d !! exerciseIndex = Some ex ->
  includes k "." = false ->
  exists ex',
    updateExercise days selectedDay exerciseIndex
      (EditField ("details." +:+ k) value)
    = Some (<[selectedDay :=
                {| day_label := day_label d; day_focus := day_focus d;
                   day_exercises :=
                     <[exerciseIndex := ex']> (day_exercises d) |}]>
              days)
    /\ or_else (ex_baselineDetails ex') (ex_details ex')
       = Some (<[k := value]>
                 (default ∅ (or_else (ex_baselineDetails ex) (ex_details ex))))
    /\ ex_name ex' = ex_name ex /\ ex_type ex' = ex_type ex.
Proof.
  intros Hex Hk.
  exists (editExercise (EditField ("details." +:+ k) value) ex).
  split.
  - unfold updateExercise. apply withExercises_Some. now rewrite Hex.
  - unfold editExercise. rewrite prefix_details. cbn [orb].
    rewrite (second_segment_details _ Hk). cbn [from_option id].
    destruct (ex_baselineDetails ex); cbn; auto.
Qed.

(** X23 (App.jsx:3370 [addExercise], 3380 [deleteExercise]): adding an
    exercise to a day and deleting the last exercise of that day gives
    back the days there were. *)
Theorem addExercise_deleteExercise :
  exists days',
    addExercise days selectedDay = Some days'
    /\ deleteExercise days' selectedDay (length (day_exercises d)) = Some days.
Proof.
  eexists. split.
  - unfold addExercise. now apply withExercises_Some.
  - unfold deleteExercise, withExercises.
    rewrite list_lookup_insert_eq by (now apply lookup_lt_Some in Hday).
    cbn [day_exercises day_label day_focus].
    f_equal. rewrite list_insert_insert_eq.
    replace (delete (length (day_exercises d))
               (day_exercises d ++ [newExercise]))
      with (day_exercises d).
    + destruct d. now apply list_insert_id.
    + clear. induction (day_exercises d) as [|x l IH]; [reflexivity|].
      change (x :: l = x :: delete (length l) (l ++ [newExercise])).
      now f_equal.
Qed.

(** X24 (App.jsx:3351 [updateExercise], 2806 the dashboard's
    projection): a value typed in the editor into a field that the engine
    does not progress ([rest], [description], ...) is the value the
    dashboard shows, in every week and whatever the settings, the
    adherence factor and the exercise's records were. *)
Theorem edit_shows_in_dashboard pow exerciseIndex ex k value week settings
    factor :
  day_exercises d !! exerciseIndex = Some ex ->
  includes k "." = false ->
  k <> "sets"%string -> k <> "reps"%string ->
  k <> "weight"%string -> k <> "duration"%string ->
  exists days' day' ex' details,
    updateExercise days selectedDay exerciseIndex
      (EditField ("details." +:+ k) value) = Some days'
    /\ currentWeekDays pow days' week settings factor !! selectedDay = Some day'
    /\ day_exercises day' !! exerciseIndex = Some ex'
    /\ ex_details ex' = Some details
    /\ details !! k = Some value.
Proof.
  intros Hex Hk Hs Hr Hw Hd.
  pose proof (lookup_lt_Some _ _ _ Hday) as Ld.
  pose proof (lookup_lt_Some _ _ _ Hex) as Le.
  set (ex1 := editExercise (EditField ("details." +:+ k) value) ex).
  assert (exists base,
            or_else (ex_details ex1) (ex_baselineDetails ex1) <> None
            /\ or_else (ex_baselineDetails ex1) (ex_details ex1) = Some base
            /\ base !! k = Some value) as (base & N & B & L).
  { unfold ex1, editExercise. rewrite prefix_details. cbn [orb].
    rewrite (second_segment_details _ Hk). cbn [from_option id].
    destruct (ex_baselineDetails ex) as [b|]; cbn.
    - eexists. split; [destruct (ex_details ex); discriminate|].
      split; [reflexivity|]. apply lookup_insert_eq.
    - eexists. split; [discriminate|].
      split; [reflexivity|]. apply lookup_insert_eq. }
  eexists _, _, _, _. split; [|split; [|split; [|split]]].
  - unfold updateExercise. apply withExercises_Some. now rewrite Hex.
  - unfold currentWeekDays. rewrite list_lookup_fmap.
    rewrite list_lookup_insert_eq by exact Ld. reflexivity.
  - cbn [materializeDay day_exercises]. rewrite list_lookup_fmap.
    rewrite list_lookup_insert_eq by exact Le. reflexivity.
  - unfold materializeExercise. cbn [ex_details]. fold ex1.
    destruct (or_else (ex_details ex1) (ex_baselineDetails ex1));
      [|congruence].
    rewrite B. reflexivity.
  - unfold applyProgression, applyProgression_body.
    now rewrite progressNumeric_lookup_ne, progressWeight_lookup_ne,
      progressReps_lookup_ne, progressNumeric_lookup_ne.
Qed.

End EditFacts.

Lemma Forall_insert_list {A} (P : A -> Prop) (l : list A) i x :
  List.Forall P l -> P x -> List.Forall P (<[i := x]> l).
Proof.
  intros H Hx. revert i. induction H as [|y l Hy H IH]; intros i.
  - constructor.
  - destruct i; cbn; constructor; auto.
Qed.

Lemma Forall_delete_list {A} (P : A -> Prop) (l : list A) i :
  List.Forall P l -> List.Forall P (delete i l).
Proof.
  intros H. revert i. induction H as [|y l Hy H IH]; intros i.
  - constructor.
  - destruct i; cbn; [assumption|constructor; auto].
Qed.

Lemma Forall_lookup_list {A} (P : A -> Prop) (l : list A) i x :
  List.Forall P l -> l !! i = Some x -> P x.
Proof.
  intros H. revert i. induction H as [|y l Hy H IH]; intros i.
  - discriminate.
  - destruct i; cbn; [now intros [= <-]|apply IH].
Qed.

Lemma withExercises_allBaselined days selectedDay f days' :
  allBaselined days ->
  (forall exercises exercises',
     List.Forall (fun ex => hasBaseline ex = true) exercises ->
     f exercises = Some exercises' ->
     List.Forall (fun ex => hasBaseline ex = true) exercises') ->
  withExercises days selectedDay f = Some days' ->
  allBaselined days'.
Proof.
  intros A F. unfold withExercises.
  destruct (days !! selectedDay) as [d|] eqn:D; [|discriminate].
  destruct (f (day_exercises d)) as [exercises|] eqn:E; [|discriminate].
  intros [= <-]. apply Forall_insert_list; [exact A|].
  cbn [day_exercises]. apply (F _ _ (Forall_lookup_list _ _ _ _ A D) E).
Qed.

Lemma editExercise_hasBaseline edit ex :
  hasBaseline ex = true -> hasBaseline (editExercise edit ex) = true.
Proof.
  unfold hasBaseline. destruct edit as [v|field v]; cbn; trivial.
  destruct (_ || _); trivial.
  destruct (ex_baselineDetails ex); [reflexivity|discriminate].
Qed.

(** X25 (App.jsx:3351-3410, the handlers of [EditPlanView]): the editor
    keeps the templates' shape. If every exercise of every day has a
    [baselineDetails], so has every exercise after any edit that does not
    throw: an update of a name or of a field, an added or a deleted
    exercise, a new focus, a new exercise type. *)
Theorem edits_keep_baselines days selectedDay days' :
  allBaselined days ->
  (exists exerciseIndex edit,
     updateExercise days selectedDay exerciseIndex edit = Some days')
  \/ addExercise days selectedDay = Some days'
  \/ (exists exerciseIndex,
        deleteExercise days selectedDay exerciseIndex = Some days')
  \/ (exists value, changeDayFocus days selectedDay value = Some days')
  \/ (exists exerciseIndex newType,
        changeExerciseType days selectedDay exerciseIndex newType
        = Some days') ->
  allBaselined days'.
Proof.
  intros A [(i & edit & H)|[H|[(i & H)|[(v & H)|(i & t & H)]]]].
  - revert H. apply withExercises_allBaselined; [exact A|].
    intros exercises exercises' F.
    destruct (exercises !! i) as [ex|] eqn:E.
    + intros [= <-]. apply Forall_insert_list; [exact F|].
      apply editExercise_hasBaseline, (Forall_lookup_list _ _ _ _ F E).
    + destruct (readsExercise edit); [discriminate|now intros [= <-]].
  - revert H. apply withExercises_allBaselined; [exact A|].
    intros exercises exercises' F [= <-].
    apply List.Forall_app. split; [exact F|]. now repeat constructor.
  - revert H. apply withExercises_allBaselined; [exact A|].
    intros exercises exercises' F [= <-]. now apply Forall_delete_list.
  - unfold changeDayFocus in H.
    destruct (days !! selectedDay) as [d|] eqn:D; [|discriminate].
    injection H as <-. apply Forall_insert_list; [exact A|].
    cbn [day_exercises]. apply (Forall_lookup_list _ _ _ _ A D).
  - revert H. apply withExercises_allBaselined; [exact A|].
    intros exercises exercises' F.
    destruct (exercises !! i) as [ex|] eqn:E; [|discriminate].
    intros [= <-]. now apply Forall_insert_list.
Qed.

Lemma updateExercise_details_witness :
  exists ex',
    updateExercise [climbing_monday; climbing_tuesday] 0 1
      (EditField ("details." +:+ "rest") (JsNumber 120))
    = Some (<[0%nat :=
                {| day_label := day_label climbing_monday;
                   day_focus := day_focus climbing_monday;
                   day_exercises :=
                     <[1%nat := ex']> (day_exercises climbing_monday) |}]>
              [climbing_monday; climbing_tuesday])
    /\ or_else (ex_baselineDetails ex') (ex_details ex')
       = Some (<["rest"%string := JsNumber 120]>
                 (default ∅ (or_else (ex_baselineDetails half_crimp)
                               (ex_details half_crimp))))
    /\ ex_name ex' = ex_name half_crimp
    /\ ex_type ex' = ex_type half_crimp.
Proof.
  exact (updateExercise_details [climbing_monday; climbing_tuesday] 0
           climbing_monday eq_refl 1 half_crimp "rest" (JsNumber 120)
           eq_refl eq_refl).
Defined.

Lemma addExercise_deleteExercise_witness :
  exists days',
    addExercise [climbing_monday; climbing_tuesday] 0 = Some days'
    /\ deleteExercise days' 0 2 = Some [climbing_monday; climbing_tuesday].
Proof.
  exact (addExercise_deleteExercise [climbing_monday; climbing_tuesday] 0
           climbing_monday eq_refl).
Defined.

Lemma edit_shows_in_dashboard_witness :
  exists days' day' ex' details,
    updateExercise [climbing_monday; climbing_tuesday] 0 1
      (EditField ("details." +:+ "rest") (JsNumber 120)) = Some days'
    /\ currentWeekDays pow_integral days' 3 (Some reps_by_two) 1 !! 0%nat
       = Some day'
    /\ day_exercises day' !! 1%nat = Some ex'
    /\ ex_details ex' = Some details
    /\ details !! "rest"%string = Some (JsNumber 120).
Proof.
  apply (edit_shows_in_dashboard [climbing_monday; climbing_tuesday] 0
           climbing_monday eq_refl pow_integral 1 half_crimp "rest");
    [reflexivity|reflexivity|discriminate..].
Defined.

Lemma edits_keep_baselines_witness :
  allBaselined
    [ {| day_label := "Monday"; day_focus := "Finger Strength";
         day_exercises := day_exercises climbing_monday ++ [newExercise] |};
      climbing_tuesday ].
Proof.
  apply (edits_keep_baselines [climbing_monday; climbing_tuesday] 0).
  - repeat constructor.
  - right. left. reflexivity.
Defined.

(** ** The interval timer *)

Section TimerFacts.

Variables sets duration rest : Z.

Lemma timerRun_stopped n s :
  isActive s = false -> timerRun sets duration rest n s = (s, O).
Proof. intros H. destruct n; cbn [timerRun]; [reflexivity|now rewrite H]. Qed.

Lemma timerRun_add a b s :
  timerRun sets duration rest (a + b) s =
  let first := timerRun sets duration rest a s in
  let second := timerRun sets duration rest b (fst first) in
  (fst second, (snd first + snd second)%nat).
Proof.
  cbv zeta. revert s. induction a as [|a IH]; intros s.
  - cbn. now destruct (timerRun sets duration rest b s).
  - cbn [Nat.add timerRun]. destruct (isActive s) eqn:A.
    + destruct (timerTick sets duration rest s) as [s1 done]. rewrite IH.
      destruct (timerRun sets duration rest a s1) as [s2 c2]. cbn [fst snd].
      destruct (timerRun sets duration rest b s2) as [s3 c3]. cbn [fst snd].
      f_equal. lia.
    + cbn [fst snd]. now rewrite timerRun_stopped.
Qed.

(** While more than a second is left, the seconds are counted down. *)
Lemma timerRun_countdown n s :
  isActive s = true ->
  Z.of_nat n = Z.max (timeLeft s) 1 - 1 ->
  timerRun sets duration rest n s
  = ({| timeLeft := Z.min (timeLeft s) 1; isResting := isResting s;
        currentSet := currentSet s; isActive := true |}, O).
Proof.
  revert s. induction n as [|n IH]; intros s A H.
  - cbn. destruct s as [t r c a]. cbn in *. subst a.
    now replace (Z.min t 1) with t by lia.
  - cbn [timerRun]. rewrite A. unfold timerTick.
    destruct (Z.leb_spec (timeLeft s) 1) as [L|L]; [lia|].
    rewrite IH; cbn [timeLeft isActive isResting currentSet]; trivial; [|lia].
    cbn [Nat.add]. do 2 f_equal. lia.
Qed.

(** A set that is not the last is followed by its rest. *)
Lemma timerRun_work c :
  c < sets ->
  timerRun sets duration rest (workSeconds duration) (working duration c)
  = (resting rest c, O).
Proof.
  intros H. unfold workSeconds.
  replace (Z.to_nat (Z.max duration 1))
    with (Z.to_nat (Z.max duration 1 - 1) + 1)%nat by lia.
  rewrite timerRun_add. cbv zeta.
  rewrite (timerRun_countdown _ (working duration c)); trivial; [|cbn; lia].
  cbn [fst snd timerRun isActive working timeLeft isResting currentSet].
  unfold timerTick. cbn [timeLeft isResting currentSet isActive negb].
  destruct (Z.leb_spec (Z.min duration 1) 1); [|lia].
  destruct (Z.ltb_spec c sets); [|lia]. reflexivity.
Qed.

(** A rest is followed by the next set. *)
Lemma timerRun_rest c :
  timerRun sets duration rest (restSeconds rest) (resting rest c)
  = (working duration (c + 1), O).
Proof.
  unfold restSeconds.
  replace (Z.to_nat (Z.max rest 1))
    with (Z.to_nat (Z.max rest 1 - 1) + 1)%nat by lia.
  rewrite timerRun_add. cbv zeta.
  rewrite (timerRun_countdown _ (resting rest c)); trivial; [|cbn; lia].
  cbn [fst snd timerRun isActive resting timeLeft isResting currentSet].
  unfold timerTick. cbn [timeLeft isResting currentSet isActive negb].
  destruct (Z.leb_spec (Z.min rest 1) 1); [|lia]. reflexivity.
Qed.

Lemma timerRun_sets (k : nat) c :
  c + Z.of_nat k = sets ->
  timerRun sets duration rest
    (k * (workSeconds duration + restSeconds rest)) (working duration c)
  = (working duration sets, O).
Proof.
  revert c. induction k as [|k IH]; intros c H.
  - cbn. f_equal. f_equal. lia.
  - cbn [Nat.mul]. rewrite timerRun_add, timerRun_add. cbv zeta.
    rewrite timerRun_work by lia. cbn [fst snd].
    rewrite timerRun_rest. cbn [fst snd].
    rewrite IH by lia. reflexivity.
Qed.

Lemma timerRun_lastSecond :
  1 <= sets ->
  timerRun sets duration rest
    (Z.to_nat (sets - 1) * (workSeconds duration + restSeconds rest)
     + Z.to_nat (Z.max duration 1 - 1)) (timerStart duration)
  = (lastSecond sets duration, O).
Proof.
  intros H. rewrite timerRun_add. cbv zeta.
  change (timerStart duration) with (working duration 1).
  rewrite timerRun_sets by lia. cbn [fst snd].
  rewrite (timerRun_countdown _ (working duration sets));
    [reflexivity|reflexivity|].
  cbn [working timeLeft]. lia.
Qed.

Lemma timerRun_finish :
  timerRun sets duration rest 1 (lastSecond sets duration)
  = (finished sets, 1%nat).
Proof.
  unfold lastSecond. cbn [timerRun isActive]. unfold timerTick.
  cbn [timeLeft isResting currentSet isActive negb].
  destruct (Z.leb_spec (Z.min duration 1) 1); [|lia].
  rewrite Z.ltb_irrefl. reflexivity.
Qed.

Lemma totalSeconds_split :
  1 <= sets ->
  totalSeconds sets duration rest =
  (Z.to_nat (sets - 1) * (workSeconds duration + restSeconds rest)
   + Z.to_nat (Z.max duration 1 - 1) + 1)%nat.
Proof.
  intros H. unfold totalSeconds, workSeconds, restSeconds.
  apply Nat2Z.inj. rewrite !Nat2Z.inj_add, Nat2Z.inj_mul, Nat2Z.inj_add.
  rewrite !Z2Nat.id by nia. nia.
Qed.

(** X26 (App.jsx:2211-2232, the interval of [TimerComponent]): a started
    timer of [sets >= 1] sets runs every set for its [duration] and rests
    for [rest] between two sets (a phase of less than a second takes one
    second). Before that many seconds it is active and [onComplete] has
    not been called; from then on it is stopped on the last set with [0]
    left, and [onComplete] has been called once. *)
Theorem timer_completes n :
  1 <= sets ->
  let result := timerRun sets duration rest n (timerStart duration) in
  if (n <? totalSeconds sets duration rest)%nat
  then isActive (fst result) = true /\ snd result = O
  else result = (finished sets, 1%nat).
Proof.
  intros H. pose proof (totalSeconds_split H) as T.
  pose proof timerRun_lastSecond H as L. cbv zeta.
  destruct (Nat.ltb_spec n (totalSeconds sets duration rest)) as [Lt|Ge].
  - set (m := (Z.to_nat (sets - 1) * (workSeconds duration + restSeconds rest)
               + Z.to_nat (Z.max duration 1 - 1))%nat) in *.
    replace m with (n + (m - n))%nat in L by lia.
    rewrite timerRun_add in L. cbv zeta in L.
    destruct (timerRun sets duration rest n (timerStart duration)) as [s c].
    cbn [fst snd] in *. injection L as L1 L2. split; [|lia].
    destruct (isActive s) eqn:A; trivial.
    rewrite (timerRun_stopped _ _ A) in L1. cbn [fst] in L1.
    now rewrite L1 in A.
  - set (total := totalSeconds sets duration rest) in *.
    replace n with (total - 1 + 1 + (n - total))%nat by lia.
    rewrite T at 1.
    rewrite Nat.add_sub, timerRun_add, timerRun_add. cbv zeta.
    rewrite L. cbn [fst snd].
    rewrite timerRun_finish. cbn [fst snd].
    now rewrite timerRun_stopped.
Qed.

Lemma timerTick_bounds s :
  1 <= sets -> 0 <= duration -> 0 <= rest ->
  let inv s :=
    0 <= timeLeft s <= Z.max duration rest
    /\ 1 <= currentSet s <= sets
    /\ (isResting s = true -> currentSet s < sets) in
  inv s -> inv (fst (timerTick sets duration rest s)).
Proof.
  intros Hs Hd Hr inv (Ht & Hc & Hrest). unfold inv, timerTick.
  destruct (Z.leb_spec (timeLeft s) 1).
  - destruct (isResting s) eqn:R; cbn [negb].
    + specialize (Hrest eq_refl). cbn.
      split; [lia|]. split; [lia|discriminate].
    + destruct (Z.ltb_spec (currentSet s) sets); cbn; rewrite ?R;
        (split; [lia|]); (split; [lia|]); [intros _; lia|discriminate].
  - cbn. split; [lia|]. split; [lia|exact Hrest].
Qed.

(** X27 (App.jsx:2211-2232): what the timer shows stays in range. With
    [sets >= 1] and a [duration] and a [rest] that are not negative, at
    every second the time left is between [0] and the longer of
    [duration] and [rest], the set shown is between [1] and [sets], and a
    rest is shown only before the last set. *)
Theorem timer_in_range n :
  1 <= sets -> 0 <= duration -> 0 <= rest ->
  let s := fst (timerRun sets duration rest n (timerStart duration)) in
  0 <= timeLeft s <= Z.max duration rest
  /\ 1 <= currentSet s <= sets
  /\ (isResting s = true -> currentSet s < sets).
Proof.
  intros Hs Hd Hr.
  assert (forall s,
            (0 <= timeLeft s <= Z.max duration rest
             /\ 1 <= currentSet s <= sets
             /\ (isResting s = true -> currentSet s < sets)) ->
            let s' := fst (timerRun sets duration rest n s) in
            0 <= timeLeft s' <= Z.max duration rest
            /\ 1 <= currentSet s' <= sets
            /\ (isResting s' = true -> currentSet s' < sets)) as K.
  { induction n as [|k IH]; intros s I; [exact I|].
    cbn [timerRun]. destruct (isActive s); [|exact I].
    pose proof (timerTick_bounds s Hs Hd Hr I) as I'.
    destruct (timerTick sets duration rest s) as [s1 done].
    specialize (IH s1 I').
    destruct (timerRun sets duration rest k s1) as [s2 c]. exact IH. }
  apply K. cbn. split; [lia|]. split; [lia|discriminate].
Qed.

End TimerFacts.

Lemma timer_completes_witness :
  timerRun 2 3 2 8 (timerStart 3) = (finished 2, 1%nat).
Proof. exact (timer_completes 2 3 2 8 ltac:(lia)). Defined.

Lemma timer_in_range_witness :
  let s := fst (timerRun 3 10 180 200 (timerStart 10)) in
  0 <= timeLeft s <= Z.max 10 180
  /\ 1 <= currentSet s <= 3
  /\ (isResting s = true -> currentSet s < 3).
Proof. apply (timer_in_range 3 10 180 200); lia. Defined.
